(** * to_tie generator: a shallow embedding of
      [utils/configuration_store/to_tie_generator.py]

    The script reads one integer from the command line and writes the C++
    header [to_tie.hpp]: a chain of [if constexpr] branches, one per
    aggregate arity, closed by a branch that stops compilation.

    Python values are modelled as follows.
    - [int] is [Z] (unbounded).
    - [str] is [string], read as a sequence of code points below 256; all
      text the script produces is ASCII.
    - A list is a [list]; [range] and [str.join] are the functions [range]
      and [join] below.
    - The file system is a finite map from paths to contents. *)

From Stdlib Require Import ZArith Ascii String List Lia FinFun.
From Stdlib Require Import Numbers.DecimalString Numbers.DecimalZ Numbers.DecimalPos.
From stdpp Require Import gmap strings.

Import ListNotations.
Local Open Scope Z_scope.

(** ** Python primitives used by the script *)

Module Py.

(** [str(z)] for an [int]: decimal digits, a leading minus sign for
    negative numbers, ["0"] for zero. *)
Definition str (z : Z) : string := NilZero.string_of_int (Z.to_int z).

(** [sep.join(ls)]. *)
Definition join (sep : string) (ls : list string) : string :=
  String.concat sep ls.

(** [range(lo, hi)]: the integers from [lo] up to, excluding, [hi]; empty
    when [hi <= lo]. *)
Definition range (lo hi : Z) : list Z :=
  map (fun i => lo + Z.of_nat i) (seq 0 (Z.to_nat (hi - lo))).

End Py.

(** ** Reading text

    [all_chars f s]: every character of [s] satisfies [f].
    [occurrences p s] counts the positions of [s] at which [p] starts. *)

Fixpoint all_chars (f : ascii -> bool) (s : string) : bool :=
  match s with
  | EmptyString => true
  | String c r => f c && all_chars f r
  end.

Fixpoint starts_with (p s : string) : bool :=
  match p, s with
  | EmptyString, _ => true
  | String a p', String b s' => Ascii.eqb a b && starts_with p' s'
  | String _ _, EmptyString => false
  end.

Fixpoint occurrences (p s : string) : nat :=
  match s with
  | EmptyString => 0
  | String c r => ((if starts_with p s then 1 else 0) + occurrences p r)%nat
  end.

Definition contains (p s : string) : bool := negb (occurrences p s =? 0)%nat.

(** [s.split(c, 1)]: the text before the first [c] and, when there is one,
    the text after it. *)
Fixpoint split_first (c : ascii) (s : string) : string * option string :=
  match s with
  | EmptyString => (EmptyString, None)
  | String d r =>
      if Ascii.eqb c d then (EmptyString, Some r)
      else let '(a, b) := split_first c r in (String d a, b)
  end.

Fixpoint drop (n : nat) (s : string) : string :=
  match n, s with
  | S n', String _ r => drop n' r
  | _, _ => s
  end.

(** The text that follows the first occurrence of the marker [m]. *)
Fixpoint after (m s : string) : option string :=
  match s with
  | EmptyString => None
  | String _ r => if starts_with m s then Some (drop (String.length m) s) else after m r
  end.

(** The text between the first occurrence of [m] and the next [close]. *)
Definition enclosed (m : string) (close : ascii) (s : string) : option string :=
  match after m s with
  | Some t => Some (fst (split_first close t))
  | None => None
  end.

(** The items of a list written with [", "] between them; none for the
    empty text. *)
Fixpoint fields (s : string) : list string :=
  let push c fs :=
    match fs with
    | f :: fs' => String c f :: fs'
    | [] => [String c EmptyString]
    end in
  match s with
  | EmptyString => [EmptyString]
  | String c r =>
      if Ascii.eqb c "," then
        match r with
        | String d r' => if Ascii.eqb d " " then EmptyString :: fields r' else push c (fields r)
        | EmptyString => push c (fields r)
        end
      else push c (fields r)
  end.

Definition items (s : string) : list string :=
  match s with
  | EmptyString => []
  | _ => fields s
  end.

(** ** The generator *)

Definition nl : string := String (ascii_of_nat 10) EmptyString.
Definition dq : string := String (ascii_of_nat 34) EmptyString.

(** [[f"p{i}" for i in range(1, num_of_elements + 1)]] *)
Definition member_names (num_of_elements : Z) : list string :=
  map (fun i => "p" +:+ Py.str i) (Py.range 1 (num_of_elements + 1)).

Definition generate_tuple (num_of_elements : Z) : string :=
  let members := Py.join ", " (member_names num_of_elements) in
  let case :=
    "auto& [" +:+ members +:+ "] = t;" +:+ nl +:+
    "return std::tie(" +:+ members +:+ ");" +:+ nl in
  let case :=
    if num_of_elements =? 0 then "return std::tie();" else case in
  "if constexpr (arity == " +:+ Py.str num_of_elements +:+ "){" +:+ nl +:+
  case +:+ nl +:+
  "}" +:+ nl.

(** The three constant pieces written by [main] around the cases. *)
Definition header : string :=
  nl +:+ "#pragma once" +:+ nl +:+
  "#include " +:+ dq +:+ "aggregate_arity.hpp" +:+ dq +:+ nl +:+
  "namespace detail {" +:+ nl +:+
  "template <typename T, std::size_t arity = aggregate_arity<std::remove_cv_t<T>>::size() - 1>" +:+ nl +:+
  "constexpr auto to_tie( T &t){" +:+ nl +:+
  "                   ".

Definition overflow_branch (num_of_cases : Z) : string :=
  "else if constexpr (arity >= " +:+ Py.str num_of_cases +:+
  ") { static_assert(false," +:+ dq +:+
  "Generate new to_tie function, the script is located in utils/configuration_store" +:+
  dq +:+ ");" +:+ nl +:+ " }".

Definition footer : string := "};}".

(** [[generate_tuple(i) for i in range(0, num_of_cases)]] *)
Definition case_list (num_of_cases : Z) : list string :=
  map generate_tuple (Py.range 0 num_of_cases).

(** ** Command line: [argparse] with one positional of [type=int]

    [parser.parse_args()] either returns the namespace or ends the process
    ([SystemExit]): status 2 after a usage message when the command line is
    wrong, status 0 after the help text when help is requested.  The model
    follows [argparse] and [int] of CPython 3.11 for this parser: the
    positional [num_of_cases] and the option [-h] / [--help] that every
    parser has unless it is switched off. *)

Module Argparse.

Definition is_digit (c : ascii) : bool :=
  let n := nat_of_ascii c in (48 <=? n)%nat && (n <=? 57)%nat.

(** White space as [int()] skips it, for code points below 256: the six
    characters of C's [isspace] (tab to carriage return, and the space),
    and the two characters above 127 that count as space (next line,
    no-break space).  The separators 28 to 31 are not skipped. *)
Definition is_space (c : ascii) : bool :=
  let n := nat_of_ascii c in
  ((9 <=? n)%nat && (n <=? 13)%nat) || (n =? 32)%nat
  || (n =? 133)%nat || (n =? 160)%nat.

Fixpoint lstrip (s : string) : string :=
  match s with
  | String c r => if is_space c then lstrip r else s
  | EmptyString => EmptyString
  end.

Fixpoint rstrip (s : string) : string :=
  match s with
  | String c r =>
      match rstrip r with
      | EmptyString => if is_space c then EmptyString else String c EmptyString
      | r' => String c r'
      end
  | EmptyString => EmptyString
  end.

Definition strip (s : string) : string := rstrip (lstrip s).

(** Decimal digits, single underscores allowed between two digits.
    [acc] is the value read so far, [after_digit] tells whether the
    previous character was a digit.  This is the value of the digits, of
    any number of them; [int] below refuses a text of too many. *)
Fixpoint digits_value (acc : Z) (after_digit : bool) (s : string) : option Z :=
  match s with
  | EmptyString => if after_digit then Some acc else None
  | String c r =>
      if is_digit c
      then digits_value (10 * acc + (Z.of_nat (nat_of_ascii c) - 48)) true r
      else if Ascii.eqb c "_" && after_digit then digits_value acc false r
      else None
  end.

(** The integer that a text denotes in the syntax of [int()]: white space
    around, a sign, decimal digits.  [None]: the text is no number. *)
Definition literal (s : string) : option Z :=
  match strip s with
  | String c r =>
      if Ascii.eqb c "-" then option_map Z.opp (digits_value 0 false r)
      else if Ascii.eqb c "+" then digits_value 0 false r
      else digits_value 0 false (String c r)
  | EmptyString => None
  end.

(** [sys.get_int_max_str_digits()], as the interpreter starts: [int()]
    converts no text of more digits. *)
Definition int_max_str_digits : Z := 4300.

Fixpoint digit_count (s : string) : Z :=
  match s with
  | EmptyString => 0
  | String c r => (if is_digit c then 1 else 0) + digit_count r
  end.

(** [int(s)]: [None] stands for [ValueError], which is raised for a text
    that is no number, and for a number of more than
    [int_max_str_digits] digits. *)
Definition int (s : string) : option Z :=
  if int_max_str_digits <? digit_count s then None else literal s.

Definition has_char (c : ascii) (s : string) : bool :=
  negb (all_chars (fun d => negb (Ascii.eqb c d)) s).

Definition nonempty_digits (s : string) : bool :=
  negb (String.eqb s "") && all_chars is_digit s.

(** The pattern [^-\d+$|^-\d*\.\d+$]; [$] also matches before a final
    newline. *)
Definition negative_number_body (t : string) : bool :=
  nonempty_digits t ||
  match split_first "." t with
  | (a, Some b) => all_chars is_digit a && nonempty_digits b
  | (_, None) => false
  end.

Definition negative_number_like (s : string) : bool :=
  match s with
  | String c r =>
      Ascii.eqb c "-" &&
      (negative_number_body r ||
       match split_first (ascii_of_nat 10) r with
       | (t, Some EmptyString) => negative_number_body t
       | _ => false
       end)
  | EmptyString => false
  end.

Inductive arg_kind : Type :=
  | Positional
  | HelpOption
  | ExplicitArgument (* [-h] or [--help] given a value it cannot take *)
  | UnknownOption.

(** What follows [-h] in one token is read as further one-letter options;
    only [h] exists. *)
Definition only_h (s : string) : bool :=
  negb (String.eqb s "") && all_chars (Ascii.eqb "h") s.

(** The tokens that ask for the help text: [-h] and [--help], the
    abbreviations of [--help], and [-h] with further [h]s, put directly
    behind it or behind an equals sign. *)
Definition help_spelling (s : string) : bool :=
  String.eqb s "-h" || String.eqb s "--help" ||
  String.eqb s "--h" || String.eqb s "--he" || String.eqb s "--hel" ||
  (starts_with "-h" s && only_h (drop 2 s)) ||
  (starts_with "-h=" s && only_h (drop 3 s)).

(** [_parse_optional]: is the token an option, and which.  The token [--]
    never gets here: [scan] below handles it. *)
Definition classify (s : string) : arg_kind :=
  if help_spelling s then HelpOption
  else
    match s with
    | EmptyString => Positional
    | String c r =>
        if negb (Ascii.eqb c "-") then Positional
        else if String.eqb r "" then Positional
        else
          let '(before, after) := split_first "=" s in
          if String.eqb before "-h" then ExplicitArgument
          else if starts_with "--" s then
            if starts_with before "--help" then
              match after with
              | Some _ => ExplicitArgument
              | None => Positional
              end
            else if has_char " " s then Positional else UnknownOption
          else if starts_with "-h" s then ExplicitArgument
          else if negative_number_like s then Positional
          else if has_char " " s then Positional
          else UnknownOption
    end.

Inductive error : Type :=
  | RequiredArgument                       (* num_of_cases is missing *)
  | InvalidInt (s : string)                (* int() raised ValueError *)
  | IgnoredExplicitArgument (s : string)
  | UnrecognizedArguments (extras : list string).

Inductive result : Type :=
  | Namespace (num_of_cases : Z)
  | ExitHelp                               (* help printed, status 0 *)
  | ExitUsage (e : error).                 (* usage printed, status 2 *)

(** The tokens are handled from left to right.  [value] is the positional
    once it has been read, [extras] collects what nothing consumes, and
    [plain] is set after a [--]: from there on every token is a
    positional. *)
Fixpoint scan (plain : bool) (value : option Z) (extras : list string)
    (argv : list string) : result :=
  let positional s rest :=
    match value with
    | Some _ => scan plain value (extras ++ [s]) rest
    | None =>
        match int s with
        | Some z => scan plain (Some z) extras rest
        | None => ExitUsage (InvalidInt s)
        end
    end in
  match argv with
  | [] =>
      match value, extras with
      | None, _ => ExitUsage RequiredArgument
      | Some z, [] => Namespace z
      | Some _, _ => ExitUsage (UnrecognizedArguments extras)
      end
  | s :: rest =>
      if plain then positional s rest
      else if String.eqb s "--" then scan true value extras rest
      else
        match classify s with
        | Positional => positional s rest
        | HelpOption => ExitHelp
        | ExplicitArgument => ExitUsage (IgnoredExplicitArgument s)
        | UnknownOption => scan plain value (extras ++ [s]) rest
        end
  end.

(** [parse_args()] on [sys.argv[1:]]. *)
Definition parse_args (argv : list string) : result := scan false None [] argv.

End Argparse.

(** ** The process: [main]

    The file system maps a path to the content of the file there.
    [open(path, "w")] creates the file or empties it; [file.write(s)]
    appends [s] to what has been written since.  Both are taken to
    succeed. *)

Definition open_w (path : string) (fs : gmap string string) : gmap string string :=
  <[path := ""]> fs.

Definition write (path s : string) (fs : gmap string string) : gmap string string :=
  alter (fun written => written +:+ s) path fs.

Inductive message : Type :=
  | Usage (e : Argparse.error)   (* usage line and error, on stderr *)
  | Help.                        (* help text, on stdout *)

(** What a run leaves behind: the exit status, what [argparse] printed, and
    the file system. *)
Record outcome : Type := Outcome {
  exit_status : Z;
  printed : option message;
  files : gmap string string
}.

Definition to_tie_hpp : string := "to_tie.hpp".

(** A command line that asks for the help text and holds nothing else. *)
Definition help_requested (argv : list string) : bool :=
  match argv with
  | [s] => Argparse.help_spelling s
  | _ => false
  end.

(** A number that [int()] converts when it is written as [str] writes it:
    one of at most [int_max_str_digits] digits. *)
Definition within_limit (z : Z) : bool :=
  Argparse.digit_count (Py.str z) <=? Argparse.int_max_str_digits.

Fixpoint repeated (c : ascii) (n : nat) : string :=
  match n with
  | O => EmptyString
  | S m => String c (repeated c m)
  end.

(** A negative number of 4301 digits, one more than [int] converts. *)
Definition long_negative : string := "-" +:+ repeated "1" 4301.

Definition main (argv : list string) (fs : gmap string string) : outcome :=
  match Argparse.parse_args argv with
  | Argparse.ExitUsage e => Outcome 2 (Some (Usage e)) fs
  | Argparse.ExitHelp => Outcome 0 (Some Help) fs
  | Argparse.Namespace arg =>
      let num_of_cases := arg + 1 in
      let fs := open_w to_tie_hpp fs in
      let fs := write to_tie_hpp header fs in
      let cases := Py.join " else " (map generate_tuple (Py.range 0 num_of_cases)) in
      let fs := write to_tie_hpp cases fs in
      let fs := write to_tie_hpp (overflow_branch num_of_cases) fs in
      let fs := write to_tie_hpp footer fs in
      Outcome 0 None fs
  end.

(** ** The pieces of the generated text

    The markers of the two kinds of branch, and the constant text between
    the places where [generate_tuple] and [main] insert a number or the
    member names. *)
Definition case_guard : string := "if constexpr (arity == ".
Definition overflow_guard : string := "if constexpr (arity >= ".
Definition any_guard : string := "if constexpr (".

(** [members] of [generate_tuple]. *)
Definition members (num_of_elements : Z) : string :=
  Py.join ", " (member_names num_of_elements).

Definition binding_open : string := "){" +:+ nl +:+ "auto& [".
Definition binding_close : string := "] = t;" +:+ nl +:+ "return std::tie(".
Definition view_close : string := ");" +:+ nl +:+ nl +:+ "}" +:+ nl.
Definition overflow_body : string :=
  ") { static_assert(false," +:+ dq +:+
  "Generate new to_tie function, the script is located in utils/configuration_store" +:+
  dq +:+ ");" +:+ nl +:+ " }".

(** The arity-detection facility, as the header names it, and the
    declaration of the template parameter [arity] there. *)
Definition facility : string := "aggregate_arity".
Definition arity_declaration : string :=
  "std::size_t arity = aggregate_arity<std::remove_cv_t<T>>::size() - 1".

(** The characters that the numbers and the member names are made of. *)
Definition number_char (c : ascii) : bool :=
  Argparse.is_digit c || Ascii.eqb c "-".
Definition member_char (c : ascii) : bool :=
  number_char c || Ascii.eqb c "p" || Ascii.eqb c "," || Ascii.eqb c " ".

(** Reading a branch back: the condition of its [if constexpr], the names
    bound by the structured binding, and the arguments of [std::tie]. *)
Definition guard_of (branch : string) : option string :=
  enclosed "if constexpr (" ")" branch.
Definition bound_names (branch : string) : option (list string) :=
  option_map items (enclosed "auto& [" "]" branch).
Definition view_names (branch : string) : option (list string) :=
  option_map items (enclosed "std::tie(" ")" branch).

(** Does the text of a condition name the facility? *)
Definition calls_facility (guard : string) : bool := contains facility guard.

(** The opening of the branch for [k], and of the overflow branch for a
    threshold, up to the closing parenthesis of the condition. *)
Definition case_guard_for (k : Z) : string := case_guard +:+ Py.str k +:+ ")".
Definition overflow_guard_for (threshold : Z) : string :=
  overflow_guard +:+ Py.str threshold +:+ ")".

(** [covers text ks threshold]: the text holds one per-arity branch for
    each [k] of [ks] and no other, and exactly one overflow branch, whose
    guard compares with [threshold]. *)
Definition covers (text : string) (ks : list Z) (threshold : Z) : bool :=
  (occurrences case_guard text =? length ks)%nat &&
  forallb (fun k => contains (case_guard_for k) text) ks &&
  (occurrences overflow_guard text =? 1)%nat &&
  contains (overflow_guard_for threshold) text.

(** The first character of a text, if any. *)
Definition first_char (s : string) : option ascii :=
  match s with
  | String c _ => Some c
  | EmptyString => None
  end.

(** The whole text of [to_tie.hpp] for the internal bound [num_of_cases]
    (the argument plus one): what the four [file.write] calls add up to. *)
Definition file_text (num_of_cases : Z) : string :=
  header +:+ Py.join " else " (map generate_tuple (Py.range 0 num_of_cases)) +:+
  overflow_branch num_of_cases +:+ footer.

(** ** Reading the generated dispatch

    [holds guard arity]: the truth of a condition as the generator writes
    it, [arity == k] or [arity >= k], for a field count; the number is
    read in decimal.  [None] for any other text.  Numbers are integers
    here, which is what they mean in C++ as long as they are not
    negative. *)
Definition holds (guard : string) (arity : Z) : option bool :=
  if starts_with "arity == " guard
  then option_map (fun k => arity =? k) (Argparse.literal (drop 9 guard))
  else if starts_with "arity >= " guard
  then option_map (fun k => k <=? arity) (Argparse.literal (drop 9 guard))
  else None.

(** Is the branch taken for this field count: its condition can be read
    and holds. *)
Definition guard_holds (arity : Z) (branch : string) : bool :=
  match guard_of branch with
  | Some g =>
      match holds g arity with
      | Some b => b
      | None => false
      end
  | None => false
  end.

(** The nesting depth at the end of a text that starts at [depth], for one
    pair of brackets; [None] when a bracket is closed that was not
    opened. *)
Fixpoint nesting (opening closing : ascii) (depth : nat) (s : string) : option nat :=
  match s with
  | EmptyString => Some depth
  | String c r =>
      if Ascii.eqb c opening then nesting opening closing (S depth) r
      else if Ascii.eqb c closing then
        match depth with
        | S d => nesting opening closing d r
        | O => None
        end
      else nesting opening closing depth r
  end.

(** What [join] puts behind the first item: every further item after a
    separator. *)
Fixpoint join_tail (sep : string) (ls : list string) : string :=
  match ls with
  | [] => EmptyString
  | x :: r => sep +:+ x +:+ join_tail sep r
  end.

(** A branch that is not the first of its chain. *)
Definition else_guard : string := "else if constexpr (".

(** The statement that stops compilation, with its message. *)
Definition diagnostic : string :=
  "static_assert(false," +:+ dq +:+
  "Generate new to_tie function, the script is located in utils/configuration_store" +:+
  dq +:+ ");".

(** * Properties *)

(** ** Strings *)

Lemma app_cons (x : ascii) (a b : string) :
  String x a +:+ b = String x (a +:+ b).
Proof. reflexivity. Qed.

Lemma app_assoc (a b c : string) : (a +:+ b) +:+ c = a +:+ (b +:+ c).
Proof.
  induction a as [|x a IH]; [reflexivity|].
  rewrite !app_cons. now rewrite IH.
Qed.

Lemma app_nil_r (a : string) : a +:+ "" = a.
Proof.
  induction a as [|x a IH]; [reflexivity|].
  rewrite app_cons. now rewrite IH.
Qed.

Lemma all_chars_app f a b :
  all_chars f (a +:+ b) = all_chars f a && all_chars f b.
Proof.
  induction a as [|x a IH]; [reflexivity|].
  rewrite app_cons. cbn [all_chars]. rewrite IH. now rewrite andb_assoc.
Qed.

Lemma all_chars_impl (f g : ascii -> bool) s :
  (forall c, f c = true -> g c = true) ->
  all_chars f s = true -> all_chars g s = true.
Proof.
  intros Hfg. induction s as [|x s IH]; [reflexivity|].
  cbn. intros [Hx Hs]%andb_prop. rewrite (Hfg _ Hx). now apply IH.
Qed.

Lemma all_chars_join f sep ls :
  all_chars f sep = true ->
  Forall (fun s => all_chars f s = true) ls ->
  all_chars f (Py.join sep ls) = true.
Proof.
  intros Hsep Hls. induction Hls as [|s ls Hs Hls IH]; [reflexivity|].
  destruct ls as [|t ls]; [exact Hs|].
  change (Py.join sep (s :: t :: ls)) with (s +:+ sep +:+ Py.join sep (t :: ls)).
  rewrite !all_chars_app, Hs, Hsep. exact IH.
Qed.

(** No occurrence of [p] starts inside a stretch of text that lacks the
    first character of [p]. *)
Lemma occurrences_skip c p x s :
  all_chars (fun d => negb (Ascii.eqb c d)) x = true ->
  occurrences (String c p) (x +:+ s) = occurrences (String c p) s.
Proof.
  induction x as [|d x IH]; [reflexivity|].
  cbn [all_chars]. intros [Hd Hx]%andb_prop.
  rewrite app_cons. cbn [occurrences starts_with].
  apply negb_true_iff in Hd. rewrite Hd. cbn. now apply IH.
Qed.

(** ** Decimal notation: [str] and [int] *)

Lemma all_chars_string_of_uint d :
  all_chars Argparse.is_digit (NilEmpty.string_of_uint d) = true.
Proof. induction d; cbn; auto. Qed.

Lemma digits_value_cons acc b c r :
  Argparse.is_digit c = true ->
  Argparse.digits_value acc b (String c r) =
  Argparse.digits_value (10 * acc + (Z.of_nat (nat_of_ascii c) - 48)) true r.
Proof. intros H. cbn [Argparse.digits_value]. now rewrite H. Qed.

Lemma digits_value_acc d : forall acc : positive,
  Argparse.digits_value (Zpos acc) true (NilEmpty.string_of_uint d) =
  Some (Zpos (Pos.of_uint_acc d acc)).
Proof.
  induction d; intros acc; cbn [NilEmpty.string_of_uint Pos.of_uint_acc];
    [reflexivity | rewrite digits_value_cons by reflexivity; rewrite <- IHd ..].
  all: f_equal.
  all: match goal with
       | |- context [Z.of_nat ?n] =>
           let v := eval vm_compute in (Z.of_nat n) in change (Z.of_nat n) with v
       end; lia.
Qed.

Lemma digits_value_zero d :
  Argparse.digits_value 0 true (NilEmpty.string_of_uint d) =
  Some (Z.of_N (Pos.of_uint d)).
Proof.
  induction d; cbn [NilEmpty.string_of_uint Pos.of_uint];
    [reflexivity | rewrite digits_value_cons by reflexivity ..];
    [exact IHd | apply (digits_value_acc d) ..].
Qed.

Lemma digits_value_start d :
  d <> Decimal.Nil ->
  Argparse.digits_value 0 false (NilEmpty.string_of_uint d) =
  Some (Z.of_N (Pos.of_uint d)).
Proof.
  intros Hd. rewrite <- digits_value_zero.
  destruct d; [congruence | cbn [NilEmpty.string_of_uint] ..];
    now rewrite !digits_value_cons by reflexivity.
Qed.

(** The digits of a positive number: what [str] prints after the sign. *)
Lemma str_pos p : Py.str (Zpos p) = NilEmpty.string_of_uint (Pos.to_uint p).
Proof.
  unfold Py.str. cbn [Z.to_int NilZero.string_of_int NilZero.string_of_uint].
  pose proof (DecimalPos.Unsigned.to_uint_nonnil p) as H.
  destruct (Pos.to_uint p); [congruence | reflexivity ..].
Qed.

Lemma str_neg p : Py.str (Zneg p) = String "-" (Py.str (Zpos p)).
Proof.
  rewrite str_pos. unfold Py.str.
  cbn [Z.to_int NilZero.string_of_int NilZero.string_of_uint].
  pose proof (DecimalPos.Unsigned.to_uint_nonnil p) as H.
  destruct (Pos.to_uint p); [congruence | reflexivity ..].
Qed.

Lemma str_pos_digits p :
  exists c r, Py.str (Zpos p) = String c r /\
    Argparse.is_digit c = true /\ all_chars Argparse.is_digit r = true.
Proof.
  rewrite str_pos.
  pose proof (all_chars_string_of_uint (Pos.to_uint p)) as Hall.
  pose proof (DecimalPos.Unsigned.to_uint_nonnil p) as Hnil.
  destruct (NilEmpty.string_of_uint (Pos.to_uint p)) as [|c r] eqn:E.
  - destruct (Pos.to_uint p); [congruence | discriminate E ..].
  - cbn [all_chars] in Hall. apply andb_prop in Hall as [Hc Hr]. eauto.
Qed.

Lemma digits_value_str_pos p :
  Argparse.digits_value 0 false (Py.str (Zpos p)) = Some (Zpos p).
Proof.
  rewrite str_pos, digits_value_start by apply DecimalPos.Unsigned.to_uint_nonnil.
  now rewrite DecimalPos.Unsigned.of_to.
Qed.

Lemma is_digit_cases c :
  Argparse.is_digit c = true ->
  In c ["0"; "1"; "2"; "3"; "4"; "5"; "6"; "7"; "8"; "9"]%char.
Proof.
  destruct c as [[] [] [] [] [] [] [] []]; vm_compute; intros H;
    solve [discriminate H | tauto].
Qed.

Lemma digit_not_space c :
  Argparse.is_digit c = true -> negb (Argparse.is_space c) = true.
Proof.
  intros H. apply is_digit_cases in H. cbn [In] in H.
  repeat (destruct H as [<- | H]; [reflexivity|]). destruct H.
Qed.

Lemma rstrip_id s :
  all_chars (fun c => negb (Argparse.is_space c)) s = true ->
  Argparse.rstrip s = s.
Proof.
  induction s as [|c r IH]; [reflexivity|].
  cbn [all_chars Argparse.rstrip]. intros [Hc Hr]%andb_prop.
  rewrite (IH Hr). apply negb_true_iff in Hc. rewrite Hc. now destruct r.
Qed.

Lemma strip_id s :
  all_chars (fun c => negb (Argparse.is_space c)) s = true ->
  Argparse.strip s = s.
Proof.
  intros H. unfold Argparse.strip.
  destruct s as [|c r]; [reflexivity|].
  pose proof H as H'. cbn [all_chars] in H'. apply andb_prop in H' as [Hc _].
  apply negb_true_iff in Hc. cbn [Argparse.lstrip]. rewrite Hc.
  now apply rstrip_id.
Qed.

Lemma literal_str_pos p : Argparse.literal (Py.str (Zpos p)) = Some (Zpos p).
Proof.
  pose proof (digits_value_str_pos p) as Hv.
  destruct (str_pos_digits p) as (c & r & E & Hc & Hr).
  unfold Argparse.literal. rewrite E in *. rewrite strip_id.
  - apply is_digit_cases in Hc. cbn [In] in Hc.
    repeat (destruct Hc as [<- | Hc]; [exact Hv|]). destruct Hc.
  - cbn [all_chars]. rewrite (digit_not_space _ Hc).
    eapply all_chars_impl; [apply digit_not_space | exact Hr].
Qed.

Lemma literal_str_neg p : Argparse.literal (Py.str (Zneg p)) = Some (Zneg p).
Proof.
  pose proof (digits_value_str_pos p) as Hv.
  destruct (str_pos_digits p) as (c & r & E & Hc & Hr).
  unfold Argparse.literal. rewrite str_neg, E in *. rewrite strip_id.
  - change (Ascii.eqb "-" "-") with true. cbv iota. now rewrite Hv.
  - cbn [all_chars]. rewrite (digit_not_space _ Hc).
    change (negb (Argparse.is_space "-")) with true.
    eapply all_chars_impl; [apply digit_not_space | exact Hr].
Qed.

(** What [str] prints denotes the number printed. *)
Lemma literal_str z : Argparse.literal (Py.str z) = Some z.
Proof.
  destruct z as [|p|p]; [reflexivity | apply literal_str_pos | apply literal_str_neg].
Qed.

(** [int] reads back what [str] prints, up to the limit on the digits. *)
Lemma int_str z : within_limit z = true -> Argparse.int (Py.str z) = Some z.
Proof.
  unfold within_limit, Argparse.int. intros H%Z.leb_le.
  destruct (Z.ltb_spec Argparse.int_max_str_digits
              (Argparse.digit_count (Py.str z))); [lia|].
  apply literal_str.
Qed.

Lemma str_inj z1 z2 : Py.str z1 = Py.str z2 -> z1 = z2.
Proof.
  intros H. pose proof (literal_str z1) as H1. rewrite H, literal_str in H1.
  congruence.
Qed.

(** ** The command line holding one number *)

Lemma split_first_none c s :
  all_chars (fun d => negb (Ascii.eqb c d)) s = true ->
  split_first c s = (s, None).
Proof.
  induction s as [|d s IH]; [reflexivity|].
  cbn [all_chars split_first]. intros [Hd Hs]%andb_prop.
  apply negb_true_iff in Hd. now rewrite Hd, (IH Hs).
Qed.

Lemma digit_not_char d :
  Argparse.is_digit d = false ->
  forall x, Argparse.is_digit x = true -> negb (Ascii.eqb d x) = true.
Proof.
  intros Hd x Hx. apply negb_true_iff, Ascii.eqb_neq. congruence.
Qed.

Lemma classify_str_pos p : Argparse.classify (Py.str (Zpos p)) = Argparse.Positional.
Proof.
  destruct (str_pos_digits p) as (c & r & -> & Hc & _).
  apply is_digit_cases in Hc. cbn [In] in Hc.
  repeat (destruct Hc as [<- | Hc]; [reflexivity|]). destruct Hc.
Qed.

Lemma classify_str_neg p : Argparse.classify (Py.str (Zneg p)) = Argparse.Positional.
Proof.
  destruct (str_pos_digits p) as (c & r & E & Hc & Hr).
  rewrite str_neg, E. unfold Argparse.classify.
  rewrite split_first_none.
  2:{ cbn [all_chars]. change (negb (Ascii.eqb "=" "-")) with true.
      rewrite (digit_not_char "=" eq_refl c Hc).
      eapply all_chars_impl; [apply (digit_not_char "=" eq_refl) | exact Hr]. }
  assert (Argparse.negative_number_like (String "-" (String c r)) = true) as ->.
  { unfold Argparse.negative_number_like, Argparse.negative_number_body,
      Argparse.nonempty_digits.
    cbn [all_chars String.eqb]. now rewrite Hc, Hr. }
  apply is_digit_cases in Hc. cbn [In] in Hc.
  repeat (destruct Hc as [<- | Hc]; [reflexivity|]). destruct Hc.
Qed.

Lemma classify_str z : Argparse.classify (Py.str z) = Argparse.Positional.
Proof.
  destruct z; [reflexivity | apply classify_str_pos | apply classify_str_neg].
Qed.

Lemma str_not_separator z : String.eqb (Py.str z) "--" = false.
Proof.
  apply String.eqb_neq. intros E. pose proof (literal_str z) as H.
  rewrite E in H. discriminate H.
Qed.

(** A number printed by [str] is accepted as the positional argument,
    whatever its sign, when it has no more digits than [int] converts. *)
Lemma parse_args_str z :
  within_limit z = true ->
  Argparse.parse_args [Py.str z] = Argparse.Namespace z.
Proof.
  intros Hz. unfold Argparse.parse_args. cbn [Argparse.scan].
  now rewrite str_not_separator, classify_str, (int_str z Hz).
Qed.

(** ** [range] *)

Lemma range_length lo hi : length (Py.range lo hi) = Z.to_nat (hi - lo).
Proof. unfold Py.range. now rewrite length_map, length_seq. Qed.

Lemma range_empty lo hi : hi <= lo -> Py.range lo hi = [].
Proof.
  intros H. unfold Py.range. now replace (Z.to_nat (hi - lo)) with 0%nat by lia.
Qed.

Lemma range_nth lo hi (i : nat) :
  (i < Z.to_nat (hi - lo))%nat ->
  nth_error (Py.range lo hi) i = Some (lo + Z.of_nat i).
Proof.
  intros H. unfold Py.range.
  rewrite nth_error_map, nth_error_seq.
  destruct (Nat.ltb_spec i (Z.to_nat (hi - lo))); [reflexivity | lia].
Qed.

Lemma map_seq_shift {A} (b : nat) : forall (f : nat -> A) (a : nat),
  map f (seq a b) = map (fun i => f (a + i)%nat) (seq 0 b).
Proof.
  induction b as [|b IH]; intros f a; [reflexivity|].
  cbn [seq map]. rewrite Nat.add_0_r. f_equal.
  rewrite (IH f (S a)), (IH (fun i => f (a + i)%nat) 1%nat).
  apply map_ext. intros i. f_equal. lia.
Qed.

Lemma range_split lo mid hi :
  lo <= mid <= hi -> Py.range lo hi = (Py.range lo mid ++ Py.range mid hi)%list.
Proof.
  intros H. unfold Py.range.
  replace (Z.to_nat (hi - lo)) with (Z.to_nat (mid - lo) + Z.to_nat (hi - mid))%nat by lia.
  rewrite seq_app, map_app. f_equal.
  rewrite map_seq_shift. apply map_ext. intros i.
  rewrite !Nat2Z.inj_add, Z2Nat.id by lia. lia.
Qed.

(** ** What [main] writes *)

Lemma main_written argv arg fs :
  Argparse.parse_args argv = Argparse.Namespace arg ->
  main argv fs = Outcome 0 None (<[to_tie_hpp := file_text (arg + 1)]> fs).
Proof.
  intros Hp. unfold main. rewrite Hp. cbv zeta. f_equal.
  unfold write, open_w. rewrite !alter_insert_eq. f_equal.
  unfold file_text. now rewrite !app_assoc.
Qed.


(** ** The shape of the generated text *)

Lemma generate_tuple_nonzero k :
  k <> 0 ->
  generate_tuple k =
  case_guard +:+ Py.str k +:+ binding_open +:+ members k +:+
  binding_close +:+ members k +:+ view_close.
Proof.
  intros Hk. unfold generate_tuple. cbv zeta.
  destruct (Z.eqb_spec k 0) as [|_]; [contradiction|].
  fold (members k). rewrite !app_assoc. reflexivity.
Qed.

Lemma overflow_branch_shape n :
  overflow_branch n = "else " +:+ overflow_guard +:+ Py.str n +:+ overflow_body.
Proof. reflexivity. Qed.

(** ** The characters of the inserted text *)

Lemma str_chars z : all_chars number_char (Py.str z) = true.
Proof.
  assert (forall p, all_chars number_char (Py.str (Zpos p)) = true) as Hp.
  { intros p. rewrite str_pos.
    eapply all_chars_impl; [|apply all_chars_string_of_uint].
    intros c Hc. unfold number_char. now rewrite Hc. }
  destruct z as [|p|p]; [reflexivity | apply Hp |].
  rewrite str_neg. cbn [all_chars]. now rewrite Hp.
Qed.

Lemma members_chars k : all_chars member_char (members k) = true.
Proof.
  unfold members, member_names. apply all_chars_join; [reflexivity|].
  apply Forall_map, Forall_forall. intros i _.
  change ("p" +:+ Py.str i) with (String "p" (Py.str i)).
  cbn [all_chars]. change (member_char "p") with true. cbn [andb].
  eapply all_chars_impl; [|apply str_chars].
  intros c Hc. unfold member_char. now rewrite Hc.
Qed.

Lemma str_member_chars z : all_chars member_char (Py.str z) = true.
Proof.
  eapply all_chars_impl; [|apply str_chars].
  intros c Hc. unfold member_char. now rewrite Hc.
Qed.

Lemma lacks_char (f : ascii -> bool) c s :
  f c = false -> all_chars f s = true ->
  all_chars (fun d => negb (Ascii.eqb c d)) s = true.
Proof.
  intros Hc. apply all_chars_impl. intros d Hd.
  apply negb_true_iff, Ascii.eqb_neq. congruence.
Qed.

(** [occurrences_skip] for a pattern given by name. *)
Lemma occurrences_pass (f : ascii -> bool) p x s :
  match first_char p with Some c => f c = false | None => False end ->
  all_chars f x = true ->
  occurrences p (x +:+ s) = occurrences p s.
Proof.
  destruct p as [|c p]; cbn [first_char]; [tauto|].
  intros Hc Hx. apply occurrences_skip. now apply (lacks_char f).
Qed.

(** Counting through text that is a chain of constant pieces, numbers and
    member names.  A constant piece is counted by evaluation, which also
    checks that no occurrence runs over its end. *)
Ltac count_constant :=
  match goal with
  | |- context [occurrences ?p (?c +:+ ?x)] =>
      let m := eval vm_compute in (occurrences p c) in
      let H := fresh "H" in
      assert (H : forall y, occurrences p (c +:+ y) = (m + occurrences p y)%nat)
        by (intro; vm_compute; reflexivity);
      rewrite (H x); clear H
  end.

Ltac count_inserted :=
  first
    [ rewrite (occurrences_pass member_char _ (Py.str _)) by
        (first [reflexivity | apply str_member_chars])
    | rewrite (occurrences_pass member_char _ (members _)) by
        (first [reflexivity | apply members_chars]) ].

Lemma occurrences_join p sep m (bs : list string) :
  Forall (fun b => forall rest,
            occurrences p (b +:+ rest) = (m + occurrences p rest)%nat) bs ->
  (forall rest, occurrences p (sep +:+ rest) = occurrences p rest) ->
  forall rest,
    occurrences p (Py.join sep bs +:+ rest) =
    (m * length bs + occurrences p rest)%nat.
Proof.
  intros Hbs Hsep rest. induction Hbs as [|b bs Hb Hbs IH].
  - cbn [Py.join String.concat length]. now rewrite Nat.mul_0_r.
  - destruct bs as [|b' bs].
    + cbn [Py.join String.concat length]. rewrite Hb. lia.
    + change (Py.join sep (b :: b' :: bs))
        with (b +:+ sep +:+ Py.join sep (b' :: bs)).
      rewrite !app_assoc, Hb, Hsep, IH. cbn [length]. lia.
Qed.

Section BranchCount.
Variable p : string.
(** How often [p] occurs in the constant pieces of a branch. *)
Variable m : nat.
Hypothesis zero_branch : forall rest,
  occurrences p (generate_tuple 0 +:+ rest) = (m + occurrences p rest)%nat.
Hypothesis other_branch : forall k rest, k <> 0 ->
  occurrences p (generate_tuple k +:+ rest) = (m + occurrences p rest)%nat.
Hypothesis separator : forall rest,
  occurrences p (" else " +:+ rest) = occurrences p rest.

Lemma occurrences_cases n rest :
  occurrences p
    (Py.join " else " (map generate_tuple (Py.range 0 n)) +:+ rest) =
  (m * Z.to_nat n + occurrences p rest)%nat.
Proof.
  rewrite (occurrences_join p " else " m); [|apply Forall_map, Forall_forall|assumption].
  - now rewrite length_map, range_length, Z.sub_0_r.
  - intros k _ rest'. destruct (Z.eq_dec k 0) as [->|Hk]; auto.
Qed.
End BranchCount.

Ltac count_branch :=
  rewrite !app_assoc;
  count_constant; count_inserted; count_constant; count_inserted;
  count_constant; count_inserted; count_constant; reflexivity.

Ltac count_file :=
  unfold file_text;
  count_constant;
  match goal with
  | |- context [occurrences ?p _] =>
      let m := eval vm_compute in (occurrences p (generate_tuple 0)) in
      rewrite (occurrences_cases p m)
  end;
  [ rewrite overflow_branch_shape, !app_assoc;
    count_constant; count_constant; count_inserted;
    match goal with
    | |- context [occurrences ?p (overflow_body +:+ footer)] =>
        let v := eval vm_compute in (occurrences p (overflow_body +:+ footer)) in
        change (occurrences p (overflow_body +:+ footer)) with v
    end; lia
  | intros rest; vm_compute; reflexivity
  | intros k rest Hk; rewrite (generate_tuple_nonzero k Hk); count_branch
  | intros rest; vm_compute; reflexivity ].

(** Each pair of [num_of_cases] and a marker: how often the marker occurs
    in the file. *)
Lemma case_guards_in_file n :
  occurrences case_guard (file_text n) = Z.to_nat n.
Proof. count_file. Qed.

Lemma overflow_guards_in_file n :
  occurrences overflow_guard (file_text n) = 1%nat.
Proof. count_file. Qed.

Lemma guards_in_file n :
  occurrences any_guard (file_text n) = (Z.to_nat n + 1)%nat.
Proof. count_file. Qed.

Lemma facility_in_file n :
  occurrences facility (file_text n) = 2%nat.
Proof. count_file. Qed.

Lemma facility_in_branch k :
  occurrences facility (generate_tuple k) = 0%nat.
Proof.
  rewrite <- (app_nil_r (generate_tuple k)).
  destruct (Z.eq_dec k 0) as [->|Hk]; [reflexivity|].
  rewrite (generate_tuple_nonzero k Hk). count_branch.
Qed.

(** ** Reading a branch back *)

Lemma after_pass (f : ascii -> bool) m x s :
  match first_char m with Some c => f c = false | None => False end ->
  all_chars f x = true ->
  after m (x +:+ s) = after m s.
Proof.
  destruct m as [|c m]; cbn [first_char]; [tauto|].
  intros Hc Hx. induction x as [|d x IH]; [reflexivity|].
  cbn [all_chars] in Hx. apply andb_prop in Hx as [Hd Hx].
  rewrite app_cons. cbn [after starts_with].
  assert (Ascii.eqb c d = false) as ->
    by (apply Ascii.eqb_neq; congruence).
  cbn [andb]. now apply IH.
Qed.

Lemma split_first_pass (f : ascii -> bool) c x s :
  f c = false -> all_chars f x = true ->
  split_first c (x +:+ s) =
  (x +:+ fst (split_first c s), snd (split_first c s)).
Proof.
  intros Hc Hx. induction x as [|d x IH].
  - change (split_first c s = (fst (split_first c s), snd (split_first c s))).
    now destruct (split_first c s).
  - cbn [all_chars] in Hx. apply andb_prop in Hx as [Hd Hx].
    rewrite !app_cons. cbn [split_first].
    assert (Ascii.eqb c d = false) as ->
      by (apply Ascii.eqb_neq; congruence).
    now rewrite (IH Hx).
Qed.

Lemma fields_nonempty s : fields s <> [].
Proof.
  destruct s as [|c r]; cbn [fields]; [discriminate|].
  destruct (Ascii.eqb c ","); [destruct r as [|d r']; [|destruct (Ascii.eqb d " ")]|];
    try discriminate; now destruct (fields _).
Qed.

Lemma fields_prefix name rest :
  all_chars (fun d => negb (Ascii.eqb "," d)) name = true ->
  fields (name +:+ rest) =
  (name +:+ hd "" (fields rest)) :: tl (fields rest).
Proof.
  induction name as [|c name IH]; intros Hn.
  - change ("" +:+ rest) with rest.
    pose proof (fields_nonempty rest). now destruct (fields rest).
  - cbn [all_chars] in Hn. apply andb_prop in Hn as [Hc Hn].
    apply negb_true_iff in Hc. rewrite Ascii.eqb_sym in Hc.
    rewrite app_cons. cbn [fields]. now rewrite Hc, (IH Hn).
Qed.

Lemma fields_join names :
  names <> [] ->
  Forall (fun n => all_chars (fun d => negb (Ascii.eqb "," d)) n = true) names ->
  fields (Py.join ", " names) = names.
Proof.
  intros Hne Hall. induction Hall as [|n names Hn Hall IH]; [congruence|].
  destruct names as [|n' names].
  - cbn [Py.join String.concat]. rewrite <- (app_nil_r n) at 1.
    rewrite (fields_prefix n "" Hn). cbn [fields hd tl]. now rewrite app_nil_r.
  - change (Py.join ", " (n :: n' :: names))
      with (n +:+ ", " +:+ Py.join ", " (n' :: names)).
    rewrite (fields_prefix n _ Hn).
    change (fields (", " +:+ Py.join ", " (n' :: names)))
      with ("" :: fields (Py.join ", " (n' :: names))).
    cbn [hd tl]. rewrite app_nil_r, IH by congruence. reflexivity.
Qed.

Lemma member_names_fields k :
  Forall (fun n => all_chars (fun d => negb (Ascii.eqb "," d)) n = true)
    (member_names k).
Proof.
  unfold member_names. apply Forall_map, Forall_forall. intros i _.
  change ("p" +:+ Py.str i) with (String "p" (Py.str i)).
  cbn [all_chars]. change (negb (Ascii.eqb "," "p")) with true. cbn [andb].
  apply (lacks_char number_char); [reflexivity | apply str_chars].
Qed.

Lemma items_members k : items (members k) = member_names k.
Proof.
  unfold members. pose proof (member_names_fields k) as Hall.
  destruct (member_names k) as [|n names] eqn:E; [reflexivity|].
  rewrite <- (fields_join (n :: names)) at 2 by (congruence || exact Hall).
  assert (exists i, n = String "p" (Py.str i)) as [i ->].
  { unfold member_names in E. destruct (Py.range 1 (k + 1)) as [|i l]; [discriminate|].
    exists i. now injection E as <- _. }
  unfold items. now destruct names.
Qed.

Lemma enclosed_found (f : ascii -> bool) m close pre body post text :
  text = pre +:+ body +:+ post ->
  (forall y, after m (pre +:+ y) = Some y) ->
  f close = false -> all_chars f body = true ->
  first_char post = Some close ->
  enclosed m close text = Some body.
Proof.
  intros -> Hpre Hc Hbody Hpost. unfold enclosed. rewrite Hpre.
  rewrite (split_first_pass f) by assumption.
  destruct post as [|d post]; [discriminate|].
  cbn [first_char] in Hpost. injection Hpost as ->.
  cbn [split_first fst]. rewrite Ascii.eqb_refl. cbn [fst]. now rewrite app_nil_r.
Qed.

Ltac after_constant :=
  match goal with
  | |- context [after ?m (?c +:+ ?x)] =>
      let H := fresh "H" in
      assert (H : forall y, after m (c +:+ y) = after m y)
        by (intro; vm_compute; reflexivity);
      rewrite (H x); clear H
  end.

Ltac after_inserted :=
  first
    [ rewrite (after_pass member_char _ (Py.str _)) by
        (first [reflexivity | apply str_member_chars])
    | rewrite (after_pass member_char _ (members _)) by
        (first [reflexivity | apply members_chars]) ].

Lemma guard_of_branch k :
  guard_of (generate_tuple k) = Some ("arity == " +:+ Py.str k).
Proof.
  destruct (Z.eq_dec k 0) as [->|Hk]; [reflexivity|].
  unfold guard_of.
  apply (enclosed_found (fun d => negb (Ascii.eqb ")" d)) _ _ any_guard _
           (binding_open +:+ members k +:+ binding_close +:+ members k +:+ view_close)).
  - rewrite (generate_tuple_nonzero k Hk), !app_assoc. reflexivity.
  - reflexivity.
  - reflexivity.
  - rewrite all_chars_app. cbn [andb].
    apply (lacks_char number_char); [reflexivity | apply str_chars].
  - reflexivity.
Qed.

Lemma bound_names_branch k :
  k <> 0 -> bound_names (generate_tuple k) = Some (member_names k).
Proof.
  intros Hk. unfold bound_names.
  rewrite (enclosed_found member_char _ _
             (case_guard +:+ Py.str k +:+ binding_open) (members k)
             (binding_close +:+ members k +:+ view_close)).
  - cbn [option_map]. now rewrite items_members.
  - rewrite (generate_tuple_nonzero k Hk), !app_assoc. reflexivity.
  - intros y. rewrite !app_assoc. after_constant. after_inserted.
    vm_compute. reflexivity.
  - reflexivity.
  - apply members_chars.
  - reflexivity.
Qed.

Lemma view_names_branch k :
  k <> 0 -> view_names (generate_tuple k) = Some (member_names k).
Proof.
  intros Hk. unfold view_names.
  rewrite (enclosed_found member_char _ _
             (case_guard +:+ Py.str k +:+ binding_open +:+ members k +:+ binding_close)
             (members k) view_close).
  - cbn [option_map]. now rewrite items_members.
  - rewrite (generate_tuple_nonzero k Hk), !app_assoc. reflexivity.
  - intros y. rewrite !app_assoc. after_constant. after_inserted.
    after_constant. after_inserted. vm_compute. reflexivity.
  - reflexivity.
  - apply members_chars.
  - reflexivity.
Qed.

(** ** Finding a branch in the file *)

Lemma starts_with_app p y : starts_with p (p +:+ y) = true.
Proof.
  induction p as [|c p IH]; [reflexivity|].
  rewrite app_cons. cbn [starts_with]. now rewrite Ascii.eqb_refl, IH.
Qed.

Lemma contains_middle p x y :
  p <> "" -> contains p (x +:+ p +:+ y) = true.
Proof.
  intros Hp. unfold contains. apply negb_true_iff, Nat.eqb_neq.
  induction x as [|d x IH].
  - change ("" +:+ p +:+ y) with (p +:+ y).
    pose proof (starts_with_app p y) as H.
    destruct p as [|c p]; [congruence|].
    rewrite app_cons in *. cbn [occurrences]. rewrite H. lia.
  - rewrite app_cons. cbn [occurrences]. lia.
Qed.

Lemma join_split sep b bs :
  In b bs -> exists pre post, Py.join sep bs = pre +:+ b +:+ post.
Proof.
  induction bs as [|x bs IH]; [intros []|]. intros [->|Hin].
  - destruct bs as [|x' bs'].
    + exists "", "". cbn [Py.join String.concat]. now rewrite app_nil_r.
    + exists "", (sep +:+ Py.join sep (x' :: bs')). reflexivity.
  - destruct (IH Hin) as (pre & post & E).
    destruct bs as [|x' bs']; [destruct Hin|].
    exists (x +:+ sep +:+ pre), post.
    change (Py.join sep (x :: x' :: bs')) with (x +:+ sep +:+ Py.join sep (x' :: bs')).
    now rewrite E, !app_assoc.
Qed.

Lemma range_In lo hi k : In k (Py.range lo hi) <-> lo <= k < hi.
Proof.
  unfold Py.range. rewrite in_map_iff. split.
  - intros (i & <- & Hi%in_seq). lia.
  - intros H. exists (Z.to_nat (k - lo)). split; [lia|]. apply in_seq. lia.
Qed.

Lemma branch_position n k :
  0 <= k < n ->
  exists pre post, file_text n = pre +:+ generate_tuple k +:+ post.
Proof.
  intros Hk.
  destruct (join_split " else " (generate_tuple k) (case_list n)) as (pre & post & E).
  { unfold case_list. apply in_map, range_In. lia. }
  exists (header +:+ pre), (post +:+ overflow_branch n +:+ footer).
  unfold file_text. fold (case_list n). rewrite E. now rewrite !app_assoc.
Qed.

Lemma generate_tuple_guard k :
  exists body, generate_tuple k = case_guard_for k +:+ body.
Proof.
  unfold generate_tuple, case_guard_for. cbv zeta. eexists.
  rewrite !app_assoc. reflexivity.
Qed.

Lemma branch_in_file n k :
  0 <= k < n -> contains (generate_tuple k) (file_text n) = true.
Proof.
  intros Hk. destruct (branch_position n k Hk) as (pre & post & ->).
  apply contains_middle. unfold generate_tuple. discriminate.
Qed.

Lemma case_guard_in_file n k :
  0 <= k < n -> contains (case_guard_for k) (file_text n) = true.
Proof.
  intros Hk. destruct (branch_position n k Hk) as (pre & post & ->).
  destruct (generate_tuple_guard k) as (body & ->).
  rewrite app_assoc. apply contains_middle. discriminate.
Qed.

Lemma overflow_guard_in_file n :
  contains (overflow_guard_for n) (file_text n) = true.
Proof.
  unfold file_text.
  replace (header +:+ Py.join " else " (map generate_tuple (Py.range 0 n)) +:+
           overflow_branch n +:+ footer)
    with ((header +:+ Py.join " else " (map generate_tuple (Py.range 0 n)) +:+ "else ")
          +:+ overflow_guard_for n +:+
          (" { static_assert(false," +:+ dq +:+
           "Generate new to_tie function, the script is located in utils/configuration_store" +:+
           dq +:+ ");" +:+ nl +:+ " }" +:+ footer)).
  - apply contains_middle. discriminate.
  - unfold overflow_guard_for, overflow_branch. rewrite !app_assoc. reflexivity.
Qed.

(** The file for the internal bound [n] holds the branches for the
    numbers of [range(0, n)] and the overflow branch for [n]. *)
Lemma file_covers n : covers (file_text n) (Py.range 0 n) n = true.
Proof.
  unfold covers.
  rewrite case_guards_in_file, overflow_guards_in_file, overflow_guard_in_file.
  rewrite range_length, Z.sub_0_r, Nat.eqb_refl. cbn [andb Nat.eqb].
  rewrite !andb_true_r. apply forallb_forall. intros k Hk%range_In.
  now apply case_guard_in_file.
Qed.

(** ** The list of branches and the list of member names *)

Lemma file_text_cases n :
  file_text n =
  header +:+ Py.join " else " (case_list n) +:+ overflow_branch n +:+ footer.
Proof. reflexivity. Qed.

Lemma case_list_length n : length (case_list n) = Z.to_nat n.
Proof. unfold case_list. now rewrite length_map, range_length, Z.sub_0_r. Qed.

Lemma case_list_nth n k :
  0 <= k < n -> nth_error (case_list n) (Z.to_nat k) = Some (generate_tuple k).
Proof.
  intros Hk. unfold case_list.
  rewrite nth_error_map, range_nth by lia. cbn [option_map].
  do 2 f_equal. lia.
Qed.

Lemma case_list_extend n n' :
  0 <= n <= n' ->
  case_list n' = (case_list n ++ map generate_tuple (Py.range n n'))%list.
Proof.
  intros H. unfold case_list. now rewrite (range_split 0 n n'), map_app by lia.
Qed.

Lemma member_names_length k : length (member_names k) = Z.to_nat k.
Proof.
  unfold member_names. rewrite length_map, range_length. f_equal. lia.
Qed.

Lemma member_names_nth k i :
  1 <= i <= k ->
  nth_error (member_names k) (Z.to_nat (i - 1)) = Some ("p" +:+ Py.str i).
Proof.
  intros Hi. unfold member_names.
  rewrite nth_error_map, range_nth by lia. cbn [option_map].
  do 3 f_equal. lia.
Qed.

Lemma member_names_NoDup k : List.NoDup (member_names k).
Proof.
  unfold member_names, Py.range. rewrite map_map.
  apply Finite.Injective_map_NoDup; [|apply seq_NoDup].
  intros i j E. change ("p" +:+ ?x) with (String "p" x) in E.
  injection E as E. apply str_inj in E. lia.
Qed.

Lemma guard_of_overflow n :
  guard_of (overflow_branch n) = Some ("arity >= " +:+ Py.str n).
Proof.
  unfold guard_of.
  apply (enclosed_found (fun d => negb (Ascii.eqb ")" d)) _ _
           "else if constexpr (" _ overflow_body).
  - unfold overflow_branch. rewrite !app_assoc. reflexivity.
  - reflexivity.
  - reflexivity.
  - rewrite all_chars_app. cbn [andb].
    apply (lacks_char number_char); [reflexivity | apply str_chars].
  - reflexivity.
Qed.

Lemma join_head sep b bs : exists rest, Py.join sep (b :: bs) = b +:+ rest.
Proof.
  destruct bs as [|b' bs].
  - exists "". cbn [Py.join String.concat]. now rewrite app_nil_r.
  - exists (sep +:+ Py.join sep (b' :: bs)). reflexivity.
Qed.

Lemma written_text argv arg fs :
  Argparse.parse_args argv = Argparse.Namespace arg ->
  files (main argv fs) !! to_tie_hpp = Some (file_text (arg + 1)).
Proof.
  intros Hp. rewrite (main_written argv arg fs Hp). cbn [files].
  apply lookup_insert_eq.
Qed.

(** ** The model on small inputs *)

Example generate_tuple_2 :
  generate_tuple 2 =
  "if constexpr (arity == 2){" +:+ nl +:+
  "auto& [p1, p2] = t;" +:+ nl +:+
  "return std::tie(p1, p2);" +:+ nl +:+
  nl +:+
  "}" +:+ nl.
Proof. reflexivity. Qed.

Example cases_for_argument_1 :
  Py.join " else " (case_list (1 + 1)) =
  generate_tuple 0 +:+ " else " +:+ generate_tuple 1.
Proof. reflexivity. Qed.

Example overflow_branch_3 :
  overflow_branch 3 =
  "else if constexpr (arity >= 3) { static_assert(false," +:+ dq +:+
  "Generate new to_tie function, the script is located in utils/configuration_store" +:+
  dq +:+ ");" +:+ nl +:+ " }".
Proof. reflexivity. Qed.

Example parse_args_examples :
  Argparse.parse_args ["2"] = Argparse.Namespace 2 /\
  Argparse.parse_args ["-2"] = Argparse.Namespace (-2) /\
  Argparse.parse_args [] = Argparse.ExitUsage Argparse.RequiredArgument /\
  Argparse.parse_args ["abc"] = Argparse.ExitUsage (Argparse.InvalidInt "abc") /\
  Argparse.parse_args ["2"; "3"] =
    Argparse.ExitUsage (Argparse.UnrecognizedArguments ["3"]) /\
  Argparse.parse_args ["-x"] = Argparse.ExitUsage Argparse.RequiredArgument /\
  Argparse.parse_args ["--help"] = Argparse.ExitHelp.
Proof. repeat split; reflexivity. Qed.

(** * The claims *)

(** C1, as stated, does not hold: with the argument 2 the file does not
    cover the four arities 0, 1, 2, 3 with an overflow guard at 4. It has
    three per-arity branches, none for 3, and no guard [arity >= 4]. *)
Lemma argument_2_four_cases_refuted :
  option_map (fun text => covers text [0; 1; 2; 3] 4)
    (files (main ["2"] ∅) !! to_tie_hpp) = Some false /\
  option_map (occurrences case_guard) (files (main ["2"] ∅) !! to_tie_hpp)
    = Some 3%nat /\
  option_map (contains (case_guard_for 3)) (files (main ["2"] ∅) !! to_tie_hpp)
    = Some false /\
  option_map (contains (overflow_guard_for 4)) (files (main ["2"] ∅) !! to_tie_hpp)
    = Some false.
Proof.
  rewrite (written_text ["2"] 2 ∅ eq_refl). cbn [option_map].
  repeat split; vm_compute; reflexivity.
Qed.

(** C1, as the code has it: with the argument 2 the program exits with
    status 0 and the file holds three per-arity branches, for k = 0, 1
    and 2, then exactly one overflow branch, whose guard is
    [arity >= 3]. *)
Theorem argument_2_three_cases (fs : gmap string string) :
  exists text,
    main ["2"] fs = Outcome 0 None (<[to_tie_hpp := text]> fs) /\
    text = header +:+
           Py.join " else " [generate_tuple 0; generate_tuple 1; generate_tuple 2] +:+
           overflow_branch 3 +:+ footer /\
    covers text [0; 1; 2] 3 = true /\
    occurrences any_guard text = 4%nat.
Proof.
  exists (file_text 3). split; [exact (main_written ["2"] 2 fs eq_refl)|].
  repeat split; vm_compute; reflexivity.
Qed.

(** C2, as stated, does not hold: with the argument 0 the file does not
    cover the arities 0 and 1 with an overflow guard at 2. It has one
    per-arity branch, none for 1, and no guard [arity >= 2]. *)
Lemma argument_0_two_cases_refuted :
  option_map (fun text => covers text [0; 1] 2)
    (files (main ["0"] ∅) !! to_tie_hpp) = Some false /\
  option_map (occurrences case_guard) (files (main ["0"] ∅) !! to_tie_hpp)
    = Some 1%nat /\
  option_map (contains (case_guard_for 1)) (files (main ["0"] ∅) !! to_tie_hpp)
    = Some false /\
  option_map (contains (overflow_guard_for 2)) (files (main ["0"] ∅) !! to_tie_hpp)
    = Some false.
Proof.
  rewrite (written_text ["0"] 0 ∅ eq_refl). cbn [option_map].
  repeat split; vm_compute; reflexivity.
Qed.

(** C2, as the code has it: with the argument 0 the program exits with
    status 0 and the file holds exactly one per-arity branch, for k = 0,
    then exactly one overflow branch, whose guard is [arity >= 1]. *)
Theorem argument_0_one_case (fs : gmap string string) :
  exists text,
    main ["0"] fs = Outcome 0 None (<[to_tie_hpp := text]> fs) /\
    text = header +:+ Py.join " else " [generate_tuple 0] +:+
           overflow_branch 1 +:+ footer /\
    covers text [0] 1 = true /\
    occurrences any_guard text = 2%nat.
Proof.
  exists (file_text 1). split; [exact (main_written ["0"] 0 fs eq_refl)|].
  repeat split; vm_compute; reflexivity.
Qed.

(** C3: for every maximum arity N >= 0, the run on a command line that
    holds the number N writes N + 2 branches: one per-arity branch for
    each k from 0 to N, in this order, and exactly one overflow branch,
    which is guarded by [arity >= N + 1] and stops compilation with
    [static_assert].  The command line that writes N in decimal holds N
    whenever [int] converts that many digits. *)
Theorem branches_for_maximum_arity (N : Z) (fs : gmap string string) :
  0 <= N ->
  exists text,
    (forall argv, Argparse.parse_args argv = Argparse.Namespace N ->
       main argv fs = Outcome 0 None (<[to_tie_hpp := text]> fs)) /\
    (within_limit N = true ->
       main [Py.str N] fs = Outcome 0 None (<[to_tie_hpp := text]> fs)) /\
    text = header +:+ Py.join " else " (case_list (N + 1)) +:+
           overflow_branch (N + 1) +:+ footer /\
    length (case_list (N + 1)) = Z.to_nat (N + 1) /\
    (forall k, 0 <= k <= N ->
       nth_error (case_list (N + 1)) (Z.to_nat k) = Some (generate_tuple k) /\
       contains (generate_tuple k) text = true) /\
    (forall k, In k (Py.range 0 (N + 1)) <-> 0 <= k <= N) /\
    covers text (Py.range 0 (N + 1)) (N + 1) = true /\
    occurrences any_guard text = Z.to_nat (N + 2) /\
    overflow_branch (N + 1) =
      "else " +:+ overflow_guard +:+ Py.str (N + 1) +:+ overflow_body /\
    contains "static_assert(false," overflow_body = true.
Proof.
  intros HN. exists (file_text (N + 1)).
  split; [intros argv Hp; exact (main_written argv N fs Hp)|].
  split; [intros HL; exact (main_written _ N fs (parse_args_str N HL))|].
  split; [reflexivity|].
  split; [apply case_list_length|].
  split.
  { intros k Hk. split; [apply case_list_nth | apply branch_in_file]; lia. }
  split; [intros k; rewrite range_In; lia|].
  split; [apply file_covers|].
  split; [rewrite guards_in_file; lia|].
  split; reflexivity.
Qed.

Lemma branches_for_maximum_arity_witness :
  0 <= 2 /\
  exists text,
    main [Py.str 2] ∅ = Outcome 0 None (<[to_tie_hpp := text]> ∅) /\
    covers text (Py.range 0 (2 + 1)) (2 + 1) = true /\
    occurrences any_guard text = Z.to_nat (2 + 2).
Proof.
  split; [lia|].
  destruct (branches_for_maximum_arity 2 ∅ ltac:(lia))
    as (text & _ & Hmain & _ & _ & _ & _ & Hcov & Hcount & _).
  exists text. split; [exact (Hmain eq_refl) | auto].
Defined.

(** C4, as stated, does not hold: the condition of the branch for k = 1
    reads [arity == 1]; it is not written as a call to the
    arity-detection facility. *)
Lemma guard_not_a_facility_call :
  guard_of (generate_tuple 1) = Some "arity == 1" /\
  option_map calls_facility (guard_of (generate_tuple 1)) = Some false.
Proof. split; vm_compute; reflexivity. Qed.

(** C4, as the code has it: the condition of the branch for k compares the
    template parameter [arity] with k, and the overflow condition compares
    it with the bound; no branch names the facility.  The facility is
    named in the header only: in the include line, and once in the
    declaration of [arity], whose default value is the facility's
    [size()] minus one. *)
Theorem guards_compare_arity_parameter (k n : Z) :
  guard_of (generate_tuple k) = Some ("arity == " +:+ Py.str k) /\
  guard_of (overflow_branch n) = Some ("arity >= " +:+ Py.str n) /\
  occurrences facility (generate_tuple k) = 0%nat /\
  occurrences facility (file_text n) = occurrences facility header /\
  occurrences facility header = 2%nat /\
  occurrences (facility +:+ "<") header = 1%nat /\
  contains arity_declaration header = true.
Proof.
  split; [apply guard_of_branch|].
  split; [apply guard_of_overflow|].
  split; [apply facility_in_branch|].
  split; [now rewrite facility_in_file|].
  repeat split; vm_compute; reflexivity.
Qed.

(** C5: for every k from 1 to N, the branch for k (the one at position k
    of the list written for the argument N) binds exactly the k names
    p1, ..., pk, in this order, and the view it returns lists exactly
    these names in the same order. *)
Theorem placeholders_in_order (N k : Z) :
  1 <= k <= N ->
  nth_error (case_list (N + 1)) (Z.to_nat k) = Some (generate_tuple k) /\
  bound_names (generate_tuple k) = Some (member_names k) /\
  view_names (generate_tuple k) = Some (member_names k) /\
  length (member_names k) = Z.to_nat k /\
  (forall i, 1 <= i <= k ->
     nth_error (member_names k) (Z.to_nat (i - 1)) = Some ("p" +:+ Py.str i)) /\
  List.NoDup (member_names k) /\
  generate_tuple k =
    case_guard +:+ Py.str k +:+ binding_open +:+ members k +:+
    binding_close +:+ members k +:+ view_close.
Proof.
  intros Hk. assert (k <> 0) as Hk0 by lia.
  split; [apply case_list_nth; lia|].
  split; [now apply bound_names_branch|].
  split; [now apply view_names_branch|].
  split; [apply member_names_length|].
  split; [intros i Hi; now apply member_names_nth|].
  split; [apply member_names_NoDup | now apply generate_tuple_nonzero].
Qed.

Lemma placeholders_in_order_witness :
  1 <= 2 <= 3 /\
  bound_names (generate_tuple 2) = Some (member_names 2) /\
  view_names (generate_tuple 2) = Some (member_names 2) /\
  length (member_names 2) = Z.to_nat 2.
Proof.
  split; [lia|].
  destruct (placeholders_in_order 3 2 ltac:(lia)) as (_ & Hb & Hv & Hl & _).
  auto.
Defined.

(** C6: for every N >= 0, the first branch written for the argument N is
    the branch for k = 0; its text is one fixed text, whatever N is; it
    binds no name and returns [std::tie()], the view without elements.
    It stands right behind the header in the file of every run on a
    command line that holds N. *)
Theorem empty_view_for_arity_0 (N : Z) (fs : gmap string string) :
  0 <= N ->
  nth_error (case_list (N + 1)) 0 = Some (generate_tuple 0) /\
  generate_tuple 0 =
    "if constexpr (arity == 0){" +:+ nl +:+ "return std::tie();" +:+ nl +:+
    "}" +:+ nl /\
  view_names (generate_tuple 0) = Some [] /\
  bound_names (generate_tuple 0) = None /\
  exists rest,
    (forall argv, Argparse.parse_args argv = Argparse.Namespace N ->
       files (main argv fs) !! to_tie_hpp =
       Some (header +:+ generate_tuple 0 +:+ rest)) /\
    (within_limit N = true ->
       files (main [Py.str N] fs) !! to_tie_hpp =
       Some (header +:+ generate_tuple 0 +:+ rest)).
Proof.
  intros HN.
  split; [apply (case_list_nth (N + 1) 0); lia|].
  do 3 (split; [reflexivity|]).
  destruct (join_head " else " (generate_tuple 0)
              (map generate_tuple (Py.range 1 (N + 1)))) as (rest & E).
  exists (rest +:+ overflow_branch (N + 1) +:+ footer).
  assert (file_text (N + 1) =
          header +:+ generate_tuple 0 +:+ rest +:+
          overflow_branch (N + 1) +:+ footer) as Et.
  { rewrite file_text_cases, (case_list_extend 1 (N + 1)) by lia.
    change (case_list 1) with [generate_tuple 0].
    cbn [app]. rewrite E. now rewrite !app_assoc. }
  split.
  - intros argv Hp. now rewrite (written_text argv N fs Hp), Et.
  - intros HL. now rewrite (written_text _ N fs (parse_args_str N HL)), Et.
Qed.

Lemma empty_view_for_arity_0_witness :
  0 <= 5 /\
  nth_error (case_list (5 + 1)) 0 = Some (generate_tuple 0) /\
  view_names (generate_tuple 0) = Some [].
Proof.
  split; [lia|].
  destruct (empty_view_for_arity_0 5 ∅ ltac:(lia)) as (H0 & _ & Hv & _).
  auto.
Defined.

Lemma write_only_after_parsing argv fs :
  files (main argv fs) <> fs ->
  exists arg, Argparse.parse_args argv = Argparse.Namespace arg.
Proof.
  unfold main. destruct (Argparse.parse_args argv) as [arg| |e]; cbn [files];
    [eauto | congruence ..].
Qed.

Lemma classify_help s :
  Argparse.classify s = Argparse.HelpOption <-> Argparse.help_spelling s = true.
Proof.
  unfold Argparse.classify.
  destruct (Argparse.help_spelling s); [tauto|].
  split; [|discriminate].
  destruct s as [|c r]; [discriminate|].
  destruct (split_first "=" (String c r)) as [before [v|]];
    repeat match goal with
           | |- context [if ?b then _ else _] => destruct b
           end; discriminate.
Qed.

(** C7, as stated, does not hold: [-h] is not an integer, and the process
    that gets it prints the help text and exits with status 0. *)
Lemma help_request_exits_zero :
  Argparse.int "-h" = None /\
  exit_status (main ["-h"] ∅) = 0 /\
  printed (main ["-h"] ∅) = Some Help.
Proof. repeat split; vm_compute; reflexivity. Qed.

(** C7, as the code has it: when the argument is missing or is not an
    integer, the file system is left as it was, and the process exits
    with status 2 after the usage message, unless the argument asks for
    help, in which case it exits with status 0 after the help text.  The
    arguments that ask for help are [-h] and [--help], the abbreviations
    [--h], [--he] and [--hel], and [-h] with one or more further [h]
    behind it or behind an equals sign, as in [-hh] and [-h=h].  On every
    command line, the file system changes only after the parser has
    returned a number. *)
Theorem no_file_without_number (argv : list string) (fs : gmap string string) :
  argv = [] \/ (exists s, argv = [s] /\ Argparse.int s = None) ->
  files (main argv fs) = fs /\
  (if help_requested argv
   then exit_status (main argv fs) = 0 /\ printed (main argv fs) = Some Help
   else exit_status (main argv fs) = 2 /\
        exists e, printed (main argv fs) = Some (Usage e)) /\
  (forall s, help_requested [s] =
     (String.eqb s "-h" || String.eqb s "--help" ||
      String.eqb s "--h" || String.eqb s "--he" || String.eqb s "--hel" ||
      (starts_with "-h" s && Argparse.only_h (drop 2 s)) ||
      (starts_with "-h=" s && Argparse.only_h (drop 3 s)))) /\
  (forall argv' fs', files (main argv' fs') <> fs' ->
     exists arg, Argparse.parse_args argv' = Argparse.Namespace arg).
Proof.
  intros Hargv.
  assert (files (main argv fs) = fs /\
          if help_requested argv
          then exit_status (main argv fs) = 0 /\ printed (main argv fs) = Some Help
          else exit_status (main argv fs) = 2 /\
               exists e, printed (main argv fs) = Some (Usage e)) as [H1 H2].
  { destruct Hargv as [-> | (s & -> & Hint)].
    - cbn. eauto.
    - unfold main, help_requested, Argparse.parse_args. cbn [Argparse.scan].
      destruct (String.eqb_spec s "--") as [->|_]; [cbn; eauto|].
      pose proof (classify_help s) as Hh.
      destruct (Argparse.classify s) eqn:Hk.
      + destruct (Argparse.help_spelling s);
          [destruct Hh as [_ Hh]; discriminate (Hh eq_refl)|].
        rewrite Hint. cbn. eauto.
      + rewrite (proj1 Hh eq_refl). cbn. eauto.
      + destruct (Argparse.help_spelling s);
          [destruct Hh as [_ Hh]; discriminate (Hh eq_refl)|].
        cbn. eauto.
      + destruct (Argparse.help_spelling s);
          [destruct Hh as [_ Hh]; discriminate (Hh eq_refl)|].
        cbn. eauto. }
  split; [exact H1|]. split; [exact H2|].
  split; [reflexivity | apply write_only_after_parsing].
Qed.

Lemma no_file_without_number_witness :
  (["abc"] = [] \/ (exists s, ["abc"] = [s] /\ Argparse.int s = None)) /\
  files (main ["abc"] ∅) = ∅ /\
  exit_status (main ["abc"] ∅) = 2.
Proof.
  assert (["abc"] = [] \/ (exists s, ["abc"] = [s] /\ Argparse.int s = None)) as H.
  { right. exists "abc". split; reflexivity. }
  split; [exact H|].
  destruct (no_file_without_number ["abc"] ∅ H) as (Hf & Hs & _).
  split; [exact Hf | exact (proj1 Hs)].
Defined.

(** C8: the text written for the bound N is a function of N alone: two
    runs on command lines that hold the same N, whatever the file system
    was before each, leave the same text in the file, and the second run,
    started where the first ended, changes nothing.  The command line
    that writes N in decimal holds N whenever [int] converts that many
    digits. *)
Theorem generation_deterministic (N : Z) (fs1 fs2 : gmap string string) :
  (forall argv1 argv2,
     Argparse.parse_args argv1 = Argparse.Namespace N ->
     Argparse.parse_args argv2 = Argparse.Namespace N ->
     files (main argv1 fs1) !! to_tie_hpp = Some (file_text (N + 1)) /\
     files (main argv2 fs2) !! to_tie_hpp = Some (file_text (N + 1)) /\
     main argv2 (files (main argv1 fs1)) = main argv1 fs1) /\
  (within_limit N = true ->
     files (main [Py.str N] fs1) !! to_tie_hpp = Some (file_text (N + 1)) /\
     files (main [Py.str N] fs2) !! to_tie_hpp = Some (file_text (N + 1)) /\
     main [Py.str N] (files (main [Py.str N] fs1)) = main [Py.str N] fs1).
Proof.
  assert (forall argv1 argv2,
     Argparse.parse_args argv1 = Argparse.Namespace N ->
     Argparse.parse_args argv2 = Argparse.Namespace N ->
     files (main argv1 fs1) !! to_tie_hpp = Some (file_text (N + 1)) /\
     files (main argv2 fs2) !! to_tie_hpp = Some (file_text (N + 1)) /\
     main argv2 (files (main argv1 fs1)) = main argv1 fs1) as H.
  { intros argv1 argv2 Hp1 Hp2.
    split; [exact (written_text _ N fs1 Hp1)|].
    split; [exact (written_text _ N fs2 Hp2)|].
    rewrite (main_written _ N fs1 Hp1). cbn [files].
    rewrite (main_written _ N _ Hp2). now rewrite insert_insert_eq. }
  split; [exact H|].
  intros HL. exact (H _ _ (parse_args_str N HL) (parse_args_str N HL)).
Qed.

Lemma generation_deterministic_witness :
  within_limit 7 = true /\
  files (main [Py.str 7] ∅) !! to_tie_hpp =
  files (main [Py.str 7] {[to_tie_hpp := "old"]}) !! to_tie_hpp.
Proof.
  split; [reflexivity|].
  destruct (proj2 (generation_deterministic 7 ∅ {[to_tie_hpp := "old"]}) eq_refl)
    as (H1 & H2 & _).
  exact (eq_trans H1 (eq_sym H2)).
Defined.

(** C9: for bounds 0 <= N < N', the per-arity branches written for N are
    a strict prefix of those written for N', branch by branch the same
    text, and the two overflow branches are the same text around the
    number in the guard, N + 1 in one and N' + 1 in the other.  These are
    the branches in the files of the runs on command lines that hold N
    and N'. *)
Theorem larger_bound_extends (N N' : Z) (fs : gmap string string) :
  0 <= N < N' ->
  (exists more, more <> [] /\
     case_list (N' + 1) = (case_list (N + 1) ++ more)%list) /\
  (forall k, 0 <= k <= N ->
     nth_error (case_list (N + 1)) (Z.to_nat k) = Some (generate_tuple k) /\
     nth_error (case_list (N' + 1)) (Z.to_nat k) = Some (generate_tuple k)) /\
  overflow_branch (N + 1) =
    "else " +:+ overflow_guard +:+ Py.str (N + 1) +:+ overflow_body /\
  overflow_branch (N' + 1) =
    "else " +:+ overflow_guard +:+ Py.str (N' + 1) +:+ overflow_body /\
  Py.str (N + 1) <> Py.str (N' + 1) /\
  (forall argv argv',
     Argparse.parse_args argv = Argparse.Namespace N ->
     Argparse.parse_args argv' = Argparse.Namespace N' ->
     files (main argv fs) !! to_tie_hpp =
       Some (header +:+ Py.join " else " (case_list (N + 1)) +:+
             overflow_branch (N + 1) +:+ footer) /\
     files (main argv' fs) !! to_tie_hpp =
       Some (header +:+ Py.join " else " (case_list (N' + 1)) +:+
             overflow_branch (N' + 1) +:+ footer)) /\
  (within_limit N = true -> within_limit N' = true ->
     files (main [Py.str N] fs) !! to_tie_hpp =
       Some (header +:+ Py.join " else " (case_list (N + 1)) +:+
             overflow_branch (N + 1) +:+ footer) /\
     files (main [Py.str N'] fs) !! to_tie_hpp =
       Some (header +:+ Py.join " else " (case_list (N' + 1)) +:+
             overflow_branch (N' + 1) +:+ footer)).
Proof.
  intros HN. split.
  { exists (map generate_tuple (Py.range (N + 1) (N' + 1))). split.
    - intros E. apply (f_equal (@length string)) in E.
      rewrite length_map, range_length in E. cbn [length] in E. lia.
    - apply case_list_extend. lia. }
  split.
  { intros k Hk. split; apply case_list_nth; lia. }
  do 2 (split; [reflexivity|]).
  split; [intros E%str_inj; lia|].
  split.
  - intros argv argv' Hp Hp'.
    split; [exact (written_text _ N fs Hp) | exact (written_text _ N' fs Hp')].
  - intros HL HL'.
    split; [exact (written_text _ N fs (parse_args_str N HL))
           | exact (written_text _ N' fs (parse_args_str N' HL'))].
Qed.

Lemma larger_bound_extends_witness :
  0 <= 1 < 3 /\
  (exists more, more <> [] /\
     case_list (3 + 1) = (case_list (1 + 1) ++ more)%list) /\
  Py.str (1 + 1) <> Py.str (3 + 1).
Proof.
  split; [lia|].
  destruct (larger_bound_extends 1 3 ∅ ltac:(lia)) as (Hp & _ & _ & _ & Hne & _).
  auto.
Defined.

(** C10, as stated, does not hold for every negative integer: the
    argument of 4301 digits and the argument [-1_0], which [int] reads as
    -10, are negative integers, and the process that gets either exits
    with status 2 and writes nothing. *)
Lemma negative_argument_refused :
  (exists a, Argparse.literal long_negative = Some a /\ a <= -1) /\
  exit_status (main [long_negative] ∅) = 2 /\
  files (main [long_negative] ∅) = ∅ /\
  Argparse.int "-1_0" = Some (-10) /\
  exit_status (main ["-1_0"] ∅) = 2 /\
  files (main ["-1_0"] ∅) = ∅.
Proof.
  split.
  { assert (option_map (fun a => a <=? -1) (Argparse.literal long_negative)
            = Some true) as H by (vm_compute; reflexivity).
    destruct (Argparse.literal long_negative) as [a|]; [|discriminate H].
    exists a. split; [reflexivity|]. injection H as H. now apply Z.leb_le. }
  repeat split; vm_compute; reflexivity.
Qed.

(** C10, as the code has it: a negative argument written in decimal, a
    minus sign and at most 4300 digits, is accepted: for every such
    a <= -1 the process exits with status 0 and writes the file, which
    holds the header, no per-arity branch, and the overflow branch with
    the guard [arity >= a + 1], where a + 1 <= 0.  The same holds on every
    command line that the parser reads as a. *)
Theorem negative_argument_accepted (a : Z) (fs : gmap string string) :
  a <= -1 ->
  (within_limit a = true ->
     main [Py.str a] fs =
       Outcome 0 None
         (<[to_tie_hpp := header +:+ overflow_branch (a + 1) +:+ footer]> fs)) /\
  (forall argv, Argparse.parse_args argv = Argparse.Namespace a ->
     main argv fs =
       Outcome 0 None
         (<[to_tie_hpp := header +:+ overflow_branch (a + 1) +:+ footer]> fs)) /\
  case_list (a + 1) = [] /\
  covers (header +:+ overflow_branch (a + 1) +:+ footer) [] (a + 1) = true /\
  guard_of (overflow_branch (a + 1)) = Some ("arity >= " +:+ Py.str (a + 1)) /\
  a + 1 <= 0.
Proof.
  intros Ha.
  assert (case_list (a + 1) = []) as Hnil.
  { unfold case_list. now rewrite range_empty by lia. }
  assert (file_text (a + 1) = header +:+ overflow_branch (a + 1) +:+ footer) as E.
  { rewrite file_text_cases, Hnil. reflexivity. }
  split; [intros HL; rewrite <- E; exact (main_written _ a fs (parse_args_str a HL))|].
  split; [intros argv Hp; rewrite <- E; exact (main_written argv a fs Hp)|].
  split; [exact Hnil|].
  split.
  { rewrite <- E. pose proof (file_covers (a + 1)) as H.
    now rewrite range_empty in H by lia. }
  split; [apply guard_of_overflow | lia].
Qed.

Lemma negative_argument_accepted_witness :
  -3 <= -1 /\ within_limit (-3) = true /\
  main [Py.str (-3)] ∅ =
    Outcome 0 None
      (<[to_tie_hpp := header +:+ overflow_branch (-3 + 1) +:+ footer]> ∅).
Proof.
  split; [lia|]. split; [reflexivity|].
  exact (proj1 (negative_argument_accepted (-3) ∅ ltac:(lia)) eq_refl).
Defined.

(** * Further properties of the generator *)

(** ** One branch per field count *)

Lemma holds_equal k v : holds ("arity == " +:+ Py.str k) v = Some (v =? k).
Proof.
  unfold holds.
  change (starts_with "arity == " ("arity == " +:+ Py.str k)) with true.
  change (drop 9 ("arity == " +:+ Py.str k)) with (Py.str k).
  now rewrite literal_str.
Qed.

Lemma holds_at_least n v : holds ("arity >= " +:+ Py.str n) v = Some (n <=? v).
Proof.
  unfold holds.
  change (starts_with "arity == " ("arity >= " +:+ Py.str n)) with false.
  change (starts_with "arity >= " ("arity >= " +:+ Py.str n)) with true.
  change (drop 9 ("arity >= " +:+ Py.str n)) with (Py.str n).
  now rewrite literal_str.
Qed.

Lemma guard_holds_branch k v : guard_holds v (generate_tuple k) = (v =? k).
Proof. unfold guard_holds. now rewrite guard_of_branch, holds_equal. Qed.

Lemma guard_holds_overflow n v : guard_holds v (overflow_branch n) = (n <=? v).
Proof. unfold guard_holds. now rewrite guard_of_overflow, holds_at_least. Qed.

Lemma filter_none {A} (f : A -> bool) (l : list A) :
  (forall x, In x l -> f x = false) -> List.filter f l = [].
Proof.
  induction l as [|x l IH]; [reflexivity|]. intros H. cbn [List.filter].
  rewrite (H x (or_introl eq_refl)). apply IH. intros y Hy. apply H. now right.
Qed.

Lemma taken_among_cases n v :
  0 <= v ->
  length (List.filter (guard_holds v) (case_list n)) = if v <? n then 1%nat else 0%nat.
Proof.
  intros Hv. destruct (Z.ltb_spec v n) as [Hlt|Hge].
  - unfold case_list.
    rewrite (range_split 0 v n), (range_split v (v + 1) n) by lia.
    rewrite !map_app, !List.filter_app, !length_app.
    rewrite (filter_none _ (map generate_tuple (Py.range 0 v))),
            (filter_none _ (map generate_tuple (Py.range (v + 1) n))).
    + replace (Py.range v (v + 1)) with [v].
      * cbn [map List.filter]. rewrite guard_holds_branch, Z.eqb_refl. reflexivity.
      * unfold Py.range. replace (v + 1 - v) with 1 by lia.
        change (Z.to_nat 1) with 1%nat. cbn [seq map Z.of_nat]. now rewrite Z.add_0_r.
    + intros b (k & <- & Hk%range_In)%in_map_iff.
      rewrite guard_holds_branch. apply Z.eqb_neq. lia.
    + intros b (k & <- & Hk%range_In)%in_map_iff.
      rewrite guard_holds_branch. apply Z.eqb_neq. lia.
  - rewrite filter_none; [reflexivity|].
    intros b (k & <- & Hk%range_In)%in_map_iff.
    rewrite guard_holds_branch. apply Z.eqb_neq. lia.
Qed.





(** ** Brackets *)

Lemma nesting_app o c x y : forall d,
  nesting o c d (x +:+ y) =
  match nesting o c d x with
  | Some d' => nesting o c d' y
  | None => None
  end.
Proof.
  induction x as [|e x IH]; intros d; [reflexivity|].
  rewrite app_cons. cbn [nesting].
  destruct (Ascii.eqb e o); [apply IH|].
  destruct (Ascii.eqb e c); [|apply IH].
  destruct d; [reflexivity | apply IH].
Qed.

Lemma nesting_pass (f : ascii -> bool) o c x d :
  f o = false -> f c = false -> all_chars f x = true ->
  nesting o c d x = Some d.
Proof.
  intros Ho Hc. induction x as [|e x IH]; [reflexivity|].
  cbn [all_chars nesting]. intros [He Hx]%andb_prop.
  assert (Ascii.eqb e o = false) as -> by (apply Ascii.eqb_neq; congruence).
  assert (Ascii.eqb e c = false) as -> by (apply Ascii.eqb_neq; congruence).
  now apply IH.
Qed.

Lemma nesting_join o c sep bs :
  (forall d, nesting o c d sep = Some d) ->
  Forall (fun b => forall d, nesting o c d b = Some d) bs ->
  forall d, nesting o c d (Py.join sep bs) = Some d.
Proof.
  intros Hsep Hbs. induction Hbs as [|b bs Hb Hbs IH]; intros d; [reflexivity|].
  destruct bs as [|b' bs]; [apply Hb|].
  change (Py.join sep (b :: b' :: bs)) with (b +:+ sep +:+ Py.join sep (b' :: bs)).
  rewrite nesting_app, Hb. cbv beta iota.
  rewrite nesting_app, Hsep. cbv beta iota. apply IH.
Qed.

(** One step through a chain of pieces: the depth after a number or the
    member names is the depth before; after a constant piece it is found
    by evaluation. *)
Ltac nest_piece :=
  try rewrite nesting_app;
  first
    [ rewrite (nesting_pass member_char _ _ (Py.str _)) by
        (first [reflexivity | apply str_member_chars])
    | rewrite (nesting_pass member_char _ _ (members _)) by
        (first [reflexivity | apply members_chars])
    | match goal with
      | |- context [nesting ?o ?c ?d ?p] =>
          let v := eval vm_compute in (nesting o c d p) in
          change (nesting o c d p) with v
      end ];
  cbv beta iota.

Ltac nest_branch :=
  intros;
  match goal with
  | |- nesting _ _ _ (generate_tuple ?k) = _ =>
      destruct (Z.eq_dec k 0) as [->|Hk];
      [ vm_compute; reflexivity
      | rewrite (generate_tuple_nonzero k Hk);
        do 7 nest_piece; reflexivity ]
  end.

Lemma braces_in_branch k d : nesting "{" "}" d (generate_tuple k) = Some d.
Proof. nest_branch. Qed.

Lemma parentheses_in_branch k d : nesting "(" ")" d (generate_tuple k) = Some d.
Proof. nest_branch. Qed.

Lemma square_brackets_in_branch k d : nesting "[" "]" d (generate_tuple k) = Some d.
Proof. nest_branch. Qed.

Ltac nest_file branch_lemma :=
  intros; unfold file_text;
  nest_piece;
  rewrite nesting_app, nesting_join;
  [ cbv beta iota; rewrite overflow_branch_shape, !app_assoc;
    do 5 nest_piece; reflexivity
  | intros; vm_compute; reflexivity
  | apply Forall_map, Forall_forall; intros; apply branch_lemma ].

(** X3: in every file the generator writes, whatever the bound, the
    braces, the parentheses and the square brackets are well nested:
    none is closed before it is opened, and none is left open. *)
Theorem brackets_well_nested (n : Z) :
  nesting "{" "}" 0 (file_text n) = Some 0%nat /\
  nesting "(" ")" 0 (file_text n) = Some 0%nat /\
  nesting "[" "]" 0 (file_text n) = Some 0%nat.
Proof.
  split; [nest_file braces_in_branch|].
  split; [nest_file parentheses_in_branch | nest_file square_brackets_in_branch].
Qed.

(** ** The chain of [if] and [else] *)

Lemma join_cons sep b bs : Py.join sep (b :: bs) = b +:+ join_tail sep bs.
Proof.
  revert b. induction bs as [|b' bs IH]; intros b.
  - cbn [Py.join String.concat join_tail]. now rewrite app_nil_r.
  - change (Py.join sep (b :: b' :: bs)) with (b +:+ sep +:+ Py.join sep (b' :: bs)).
    now rewrite IH.
Qed.

Lemma occurrences_join_tail p sep m (bs : list string) :
  Forall (fun b => forall rest,
            occurrences p (sep +:+ b +:+ rest) = (m + occurrences p rest)%nat) bs ->
  forall rest,
    occurrences p (join_tail sep bs +:+ rest) =
    (m * length bs + occurrences p rest)%nat.
Proof.
  intros Hbs rest. induction Hbs as [|b bs Hb Hbs IH].
  - cbn [join_tail length]. change ("" +:+ rest) with rest. lia.
  - cbn [join_tail length]. rewrite !app_assoc, Hb, IH. lia.
Qed.

Lemma else_guard_before_branch k rest :
  occurrences else_guard (" else " +:+ generate_tuple k +:+ rest) =
  (1 + occurrences else_guard rest)%nat.
Proof.
  destruct (Z.eq_dec k 0) as [->|Hk]; [vm_compute; reflexivity|].
  rewrite (generate_tuple_nonzero k Hk), !app_assoc.
  rewrite <- (app_assoc " else " case_guard).
  count_constant; count_inserted; count_constant; count_inserted;
  count_constant; count_inserted; count_constant; reflexivity.
Qed.

Lemma else_guards_in_file n :
  occurrences else_guard (file_text n) = Nat.max 1 (Z.to_nat n).
Proof.
  unfold file_text. count_constant.
  assert (forall rest,
            occurrences else_guard (overflow_branch n +:+ rest) =
            (1 + occurrences else_guard rest)%nat) as Hover.
  { intros rest. unfold overflow_branch. rewrite !app_assoc.
    count_constant; count_inserted. vm_compute. reflexivity. }
  destruct (Z.le_gt_cases n 0) as [Hn|Hn].
  - rewrite range_empty by lia. cbn [map Py.join String.concat].
    change ("" +:+ overflow_branch n +:+ footer) with (overflow_branch n +:+ footer).
    rewrite Hover. replace (Z.to_nat n) with 0%nat by lia. reflexivity.
  - rewrite (range_split 0 1 n) by lia.
    change (Py.range 0 1) with [0]. cbn [app map].
    rewrite join_cons, !app_assoc.
    assert (forall rest, occurrences else_guard (generate_tuple 0 +:+ rest) =
                         occurrences else_guard rest) as -> by (intro; vm_compute; reflexivity).
    rewrite (occurrences_join_tail else_guard " else " 1).
    + rewrite Hover, length_map, range_length. cbn [Nat.add].
      change (occurrences else_guard footer) with 0%nat. lia.
    + apply Forall_map, Forall_forall. intros k _ rest.
      apply else_guard_before_branch.
Qed.

(** X4: the branches form one chain exactly when the argument is not
    negative.  For an argument a >= 0 the file has a + 2 conditions, and
    all but one, the first, come after [else].  For a <= -1 the file has a
    single condition, and it comes after an [else] that follows no
    [if].  The file is the one of every run on a command line that holds
    a. *)
Theorem chain_of_conditions (a : Z) (fs : gmap string string) :
  exists text,
    (forall argv, Argparse.parse_args argv = Argparse.Namespace a ->
       files (main argv fs) !! to_tie_hpp = Some text) /\
    (within_limit a = true ->
       files (main [Py.str a] fs) !! to_tie_hpp = Some text) /\
    (0 <= a ->
       occurrences any_guard text = Z.to_nat (a + 2) /\
       occurrences else_guard text = Z.to_nat (a + 1) /\
       exists rest, text = header +:+ any_guard +:+ rest) /\
    (a <= -1 ->
       occurrences any_guard text = 1%nat /\
       occurrences else_guard text = 1%nat /\
       exists rest, text = header +:+ else_guard +:+ rest).
Proof.
  exists (file_text (a + 1)).
  split; [intros argv Hp; exact (written_text argv a fs Hp)|].
  split; [intros HL; exact (written_text _ a fs (parse_args_str a HL))|].
  rewrite guards_in_file, else_guards_in_file.
  split; intros Ha.
  - split; [lia|]. split; [lia|].
    unfold file_text. rewrite (range_split 0 1 (a + 1)) by lia.
    change (Py.range 0 1) with [0]. cbn [app map].
    rewrite join_cons. eexists. rewrite !app_assoc. reflexivity.
  - split; [lia|]. split; [lia|].
    unfold file_text. rewrite range_empty by lia.
    eexists. reflexivity.
Qed.

Lemma chain_of_conditions_witness :
  (0 <= 2 /\ within_limit 2 = true /\
   exists text,
     files (main [Py.str 2] ∅) !! to_tie_hpp = Some text /\
     occurrences any_guard text = Z.to_nat (2 + 2) /\
     occurrences else_guard text = Z.to_nat (2 + 1)) /\
  (-3 <= -1 /\ within_limit (-3) = true /\
   exists text,
     files (main [Py.str (-3)] ∅) !! to_tie_hpp = Some text /\
     occurrences any_guard text = 1%nat /\
     occurrences else_guard text = 1%nat).
Proof.
  split.
  - split; [lia|]. split; [reflexivity|].
    destruct (chain_of_conditions 2 ∅) as (text & _ & Hw & Hpos & _).
    destruct (Hpos ltac:(lia)) as (H1 & H2 & _).
    exists text. split; [exact (Hw eq_refl) | auto].
  - split; [lia|]. split; [reflexivity|].
    destruct (chain_of_conditions (-3) ∅) as (text & _ & Hw & _ & Hneg).
    destruct (Hneg ltac:(lia)) as (H1 & H2 & _).
    exists text. split; [exact (Hw eq_refl) | auto].
Defined.

(** ** Bindings *)

Lemma member_names_empty k : k <= 0 -> member_names k = [].
Proof. intros Hk. unfold member_names. now rewrite range_empty by lia. Qed.



(** X6: [main] never passes a negative number to [generate_tuple]: every
    per-arity branch of a file, whatever the bound, is the branch of some
    k >= 0 below the bound, so no file holds a binding without names. *)
Theorem no_empty_binding_written (n : Z) (b : string) :
  In b (case_list n) ->
  (exists k, 0 <= k < n /\ b = generate_tuple k) /\
  bound_names b <> Some [].
Proof.
  intros (k & <- & Hk%range_In)%in_map_iff.
  split; [eauto|].
  destruct (Z.eq_dec k 0) as [->|Hk0]; [discriminate|].
  rewrite (bound_names_branch k Hk0). intros [= E].
  apply (f_equal (@length string)) in E.
  rewrite member_names_length in E. cbn [length] in E. lia.
Qed.

Lemma no_empty_binding_written_witness :
  In (generate_tuple 1) (case_list 2) /\
  bound_names (generate_tuple 1) <> Some [].
Proof.
  assert (In (generate_tuple 1) (case_list 2)) as H by (right; left; reflexivity).
  split; [exact H | exact (proj2 (no_empty_binding_written 2 _ H))].
Defined.

(** X7: the names are stable from one arity to the next: for
    0 <= k <= k', the names bound by the branch for k' start with the
    names bound by the branch for k, in the same places. *)
Theorem member_names_extend (k k' : Z) :
  0 <= k <= k' ->
  member_names k' =
    (member_names k ++
     map (fun i => "p" +:+ Py.str i) (Py.range (k + 1) (k' + 1)))%list /\
  (forall i, (i < Z.to_nat k)%nat ->
     nth_error (member_names k') i = nth_error (member_names k) i).
Proof.
  intros Hk.
  assert (member_names k' =
          (member_names k ++
           map (fun i => "p" +:+ Py.str i) (Py.range (k + 1) (k' + 1)))%list) as E.
  { unfold member_names.
    now rewrite (range_split 1 (k + 1) (k' + 1)), map_app by lia. }
  split; [exact E|].
  intros i Hi. rewrite E. apply nth_error_app1.
  now rewrite member_names_length.
Qed.

Lemma member_names_extend_witness :
  0 <= 2 <= 4 /\
  member_names 4 =
    (member_names 2 ++
     map (fun i => "p" +:+ Py.str i) (Py.range (2 + 1) (4 + 1)))%list.
Proof.
  split; [lia|].
  exact (proj1 (member_names_extend 2 4 ltac:(lia))).
Defined.

(** ** The file system *)

(** X8: a run changes at most the file [to_tie.hpp]: every other path
    has after the run what it had before, on every command line.  When
    the run changes the file system, it exits with status 0, prints
    nothing, and [to_tie.hpp] holds the whole generated text and nothing
    of what the file held before. *)
Theorem only_to_tie_hpp_is_written (argv : list string) (fs : gmap string string) :
  (forall path, path <> to_tie_hpp ->
     files (main argv fs) !! path = fs !! path) /\
  (files (main argv fs) <> fs ->
     exit_status (main argv fs) = 0 /\ printed (main argv fs) = None /\
     exists arg,
       Argparse.parse_args argv = Argparse.Namespace arg /\
       files (main argv fs) !! to_tie_hpp = Some (file_text (arg + 1))).
Proof.
  destruct (Argparse.parse_args argv) as [arg| |e] eqn:Hp.
  - rewrite (main_written argv arg fs Hp). cbn [files exit_status printed].
    split.
    + intros path Hne. now apply lookup_insert_ne.
    + intros _. repeat split. exists arg. split; [reflexivity|].
      apply lookup_insert_eq.
  - unfold main. rewrite Hp. cbn [files]. split; [reflexivity | congruence].
  - unfold main. rewrite Hp. cbn [files]. split; [reflexivity | congruence].
Qed.

Lemma only_to_tie_hpp_is_written_witness :
  "main.cpp" <> to_tie_hpp /\
  files (main ["2"] {["main.cpp" := "int main(){}"]}) !! "main.cpp" =
    ({["main.cpp" := "int main(){}"]} : gmap string string) !! "main.cpp".
Proof.
  assert ("main.cpp" <> to_tie_hpp) as H by discriminate.
  split; [exact H|].
  exact (proj1 (only_to_tie_hpp_is_written ["2"] {["main.cpp" := "int main(){}"]})
           "main.cpp" H).
Defined.

(** ** The diagnostic *)

Lemma diagnostic_in_file n : occurrences diagnostic (file_text n) = 1%nat.
Proof. count_file. Qed.

Lemma static_assert_in_file n : occurrences "static_assert" (file_text n) = 1%nat.
Proof. count_file. Qed.

(** X10: every file the program writes, for any argument, negative ones
    included, holds the statement that stops compilation exactly once,
    with the message that tells to generate the function again, and holds
    it in the overflow branch, right behind the condition.  The file is
    the one of every run on a command line that holds the argument. *)
Theorem diagnostic_written_once (a : Z) (fs : gmap string string) :
  exists text,
    (forall argv, Argparse.parse_args argv = Argparse.Namespace a ->
       files (main argv fs) !! to_tie_hpp = Some text) /\
    (within_limit a = true ->
       files (main [Py.str a] fs) !! to_tie_hpp = Some text) /\
    occurrences diagnostic text = 1%nat /\
    occurrences "static_assert" text = 1%nat /\
    overflow_branch (a + 1) =
      "else " +:+ overflow_guard_for (a + 1) +:+ " { " +:+ diagnostic +:+ nl +:+ " }".
Proof.
  exists (file_text (a + 1)).
  split; [intros argv Hp; exact (written_text argv a fs Hp)|].
  split; [intros HL; exact (written_text _ a fs (parse_args_str a HL))|].
  split; [apply diagnostic_in_file|].
  split; [apply static_assert_in_file|].
  unfold overflow_branch, overflow_guard_for. rewrite !app_assoc. reflexivity.
Qed.

Lemma diagnostic_written_once_witness :
  within_limit (-1) = true /\
  exists text,
    files (main [Py.str (-1)] ∅) !! to_tie_hpp = Some text /\
    occurrences diagnostic text = 1%nat.
Proof.
  split; [reflexivity|].
  destruct (diagnostic_written_once (-1) ∅) as (text & _ & Hw & Hd & _).
  exists text. split; [exact (Hw eq_refl) | exact Hd].
Defined.
